(** * Gateway worker: socket relay, router and HTTP timeout guard

    A shallow embedding of [src/index.js].  The relay of [handleWebSocket]
    is a set of listeners registered on two sockets and one timer; each
    listener is embedded as a function from the session's state to the
    actions it performs and the state it leaves.  The platform (the event
    loop, the sockets' [readyState], whether a [send] throws, the
    [Response] constructor) is kept apart from the listeners, in the
    definitions marked "platform". *)

From Stdlib Require Import ZArith List String Ascii Bool Lia DecimalString.
Import ListNotations.
Open Scope string_scope.
Open Scope list_scope.

(** ** Constants (lines 1-3 and 73) *)

Definition WEBSOCKET_TIMEOUT : Z := 10000.
Definition API_TIMEOUT : Z := 15000.
Definition CACHE_TTL : Z := 3600.
Definition MAX_PENDING_MESSAGES : nat := 10.

(** ** Data *)

(** [event.data]: a text or a binary message; the relay never looks inside. *)
Inductive Frame : Type :=
| TextFrame (text : string)
| BinaryFrame (bytes : list Byte.byte).

(** [WebSocket.readyState]: 0, 1, 2, 3. *)
Inductive ReadyState : Type := CONNECTING | OPEN | CLOSING | CLOSED.

Definition isOpen (r : ReadyState) : bool :=
  match r with OPEN => true | _ => false end.

(** The two sockets a session owns: [proxy] is the server end of the
    [WebSocketPair] (the client's frames arrive on it), [targetWebSocket]
    is the outbound socket to the remote service. *)
Inductive Socket : Type := proxy | targetWebSocket.

(** What a listener does to the outside world, in the order it does it. *)
Inductive Action : Type :=
| Send (on : Socket) (data : Frame) (threw : bool)
| Close (on : Socket) (code : Z) (reason : string)
| Uncaught (error : string)
| ClearTimeout
| ConsoleLog (line : string)
| ConsoleError (line : string).

(** The variables the closures of [handleWebSocket] share. [timeoutId] is
    [true] while the one-shot timer of line 80 is still scheduled.
    [sendCalls] is not a variable of the source: it counts the calls of
    [send] so far, so that the platform may let one call throw and the
    next one, of the same frame, succeed. *)
Record Session : Type := mkSession {
  pendingMessages : list Frame;
  targetReadyState : ReadyState;
  proxyReadyState : ReadyState;
  timeoutId : bool;
  sendCalls : nat
}.

Definition readyState (sock : Socket) (s : Session) : ReadyState :=
  match sock with
  | proxy => proxyReadyState s
  | targetWebSocket => targetReadyState s
  end.

Definition setReadyState (sock : Socket) (r : ReadyState) (s : Session) : Session :=
  match sock with
  | proxy =>
      mkSession (pendingMessages s) (targetReadyState s) r (timeoutId s)
        (sendCalls s)
  | targetWebSocket =>
      mkSession (pendingMessages s) r (proxyReadyState s) (timeoutId s)
        (sendCalls s)
  end.

Definition setPending (ms : list Frame) (s : Session) : Session :=
  mkSession ms (targetReadyState s) (proxyReadyState s) (timeoutId s)
    (sendCalls s).

Definition setTimer (b : bool) (s : Session) : Session :=
  mkSession (pendingMessages s) (targetReadyState s) (proxyReadyState s) b
    (sendCalls s).

Definition countSend (s : Session) : Session :=
  mkSession (pendingMessages s) (targetReadyState s) (proxyReadyState s)
    (timeoutId s) (S (sendCalls s)).

(** The events the platform delivers to a session. *)
Inductive Event : Type :=
| EvTargetOpen
| EvProxyMessage (data : Frame)
| EvTargetMessage (data : Frame)
| EvTargetClose (code : Z) (reason : string)
| EvProxyClose (code : Z) (reason : string)
| EvTargetError (message : string)
| EvTimeout.

(** ** Listeners as state transformers that also emit actions *)

Definition Handler : Type := Session -> list Action * Session.

Definition skip : Handler := fun s => ([], s).

Definition andThen (h k : Handler) : Handler :=
  fun s =>
    let first := h s in
    let second := k (snd first) in
    (fst first ++ fst second, snd second).

Notation "h ;; k" := (andThen h k) (at level 61, right associativity).

Definition emit (a : Action) : Handler := fun s => ([a], s).

Definition modify (f : Session -> Session) : Handler := fun s => ([], f s).

Definition ifThenElse (c : Session -> bool) (h k : Handler) : Handler :=
  fun s => if c s then h s else k s.

(** [for (const message of ms) body(message)] *)
Fixpoint forEach (ms : list Frame) (body : Frame -> Handler) : Handler :=
  match ms with
  | [] => skip
  | m :: rest => body m ;; forEach rest body
  end.

Definition decimal (n : nat) : string := NilEmpty.string_of_uint (Nat.to_uint n).

(** Platform: the close codes [close(code, reason)] accepts, which are
    those an endpoint may send: 1000 to 4999 without the codes reserved
    for the absence of a code (1005), an abnormal closure (1006), a
    failed handshake (1015) and 1004.  A "close" event that reports 1005
    or 1006 therefore carries a code that cannot be passed on. *)
Definition validCloseCode (code : Z) : bool :=
  (1000 <=? code)%Z && (code <? 5000)%Z
  && negb (code =? 1004)%Z && negb (code =? 1005)%Z
  && negb (code =? 1006)%Z && negb (code =? 1015)%Z.

Section Relay.

(** Platform: whether the call [sock.send(data)] throws, which may depend
    on everything the session has come to. *)
Variable send_throws : Socket -> Session -> Frame -> bool.

(** Platform: [sock.close(code, reason)].  A code the platform accepts
    starts the closing handshake of a socket that is not closing or closed
    yet.  A code it refuses makes the call throw: the socket stays as it
    is and the exception leaves the listener, no call of [close] in the
    source being inside a [try]; each is the last statement its listener
    runs, so nothing of the listener is skipped. *)
Definition closeSocket (sock : Socket) (code : Z) (reason : string) : Handler :=
  emit (Close sock code reason) ;;
  ifThenElse (fun _ => validCloseCode code)
    (modify (fun s =>
       match readyState sock s with
       | CONNECTING | OPEN => setReadyState sock CLOSING s
       | CLOSING | CLOSED => s
       end))
    (emit (Uncaught "Invalid WebSocket close code")).

(** [try { sock.send(data); console.log(ok) } catch (error) { console.error(ko) }] *)
Definition trySend (sock : Socket) (data : Frame) (ok ko : string) : Handler :=
  fun s =>
    if send_throws sock s data
    then ([Send sock data true; ConsoleError ko], countSend s)
    else ([Send sock data false; ConsoleLog ok], countSend s).

(** Lines 80-85: the callback of [setTimeout]. *)
Definition onTimeout : Handler :=
  ifThenElse (fun s => Nat.eqb (List.length (pendingMessages s)) 0)
    (emit (ConsoleLog "WebSocket connection timeout") ;;
     closeSocket targetWebSocket 1000 "No activity after connection")
    skip.

(** Lines 93-100: the loop over the pending frames; no state is tested
    in it. *)
Definition drain (ms : list Frame) : Handler :=
  forEach ms (fun message =>
    trySend targetWebSocket message
      "Sent pending message:" "Error sending pending message:").

(** Lines 87-102: the "open" listener of [targetWebSocket]. *)
Definition onTargetOpen : Handler :=
  emit (ConsoleLog "Connected to target server") ;;
  emit ClearTimeout ;;
  modify (setTimer false) ;;
  (fun s =>
     (emit (ConsoleLog ("Processing " ++ decimal (List.length (pendingMessages s))
                          ++ " pending messages")%string) ;;
      drain (pendingMessages s)) s) ;;
  modify (setPending []).

(** Lines 104-128: the "message" listener of [proxy]. *)
Definition onProxyMessage (data : Frame) : Handler :=
  emit (ConsoleLog "Received message from client:") ;;
  ifThenElse (fun s => isOpen (targetReadyState s))
    (trySend targetWebSocket data
       "Successfully sent message to target server"
       "Error sending to target server:")
    (ifThenElse
       (fun s => Nat.leb MAX_PENDING_MESSAGES (List.length (pendingMessages s)))
       (emit (ConsoleLog "Too many pending messages, closing connection") ;;
        closeSocket proxy 1008 "Too many pending messages")
       (emit (ConsoleLog "Connection not ready, queueing message") ;;
        modify (fun s => setPending (pendingMessages s ++ [data]) s))).

(** Lines 130-145: the "message" listener of [targetWebSocket]; the test
    of [readyState] is inside the [try], which changes nothing. *)
Definition onTargetMessage (data : Frame) : Handler :=
  emit (ConsoleLog "Received message from target server:") ;;
  ifThenElse (fun s => isOpen (proxyReadyState s))
    (trySend proxy data
       "Successfully forwarded message to client"
       "Error forwarding to client:")
    skip.

(** Lines 147-158: the "close" listener of [targetWebSocket]. *)
Definition onTargetClose (code : Z) (reason : string) : Handler :=
  emit (ConsoleLog "Target server connection closed:") ;;
  ifThenElse (fun s => isOpen (proxyReadyState s))
    (closeSocket proxy code reason)
    skip.

(** Lines 160-170: the "close" listener of [proxy]. *)
Definition onProxyClose (code : Z) (reason : string) : Handler :=
  emit (ConsoleLog "Client connection closed:") ;;
  ifThenElse (fun s => isOpen (targetReadyState s))
    (closeSocket targetWebSocket code reason)
    skip.

(** Lines 172-178: the "error" listener of [targetWebSocket]. *)
Definition onTargetError (message : string) : Handler :=
  emit (ConsoleError "Target server WebSocket error:").

(** Platform: what the event itself does to the session before the
    listener runs.  A socket is [OPEN] when its "open" event is
    dispatched and [CLOSED] when its "close" event is; a timer that fires
    is no longer scheduled. *)
Definition arrive (e : Event) (s : Session) : Session :=
  match e with
  | EvTargetOpen => setReadyState targetWebSocket OPEN s
  | EvTargetClose _ _ => setReadyState targetWebSocket CLOSED s
  | EvProxyClose _ _ => setReadyState proxy CLOSED s
  | EvTimeout => setTimer false s
  | EvProxyMessage _ | EvTargetMessage _ | EvTargetError _ => s
  end.

(** The listener registered for an event. *)
Definition listener (e : Event) : Handler :=
  match e with
  | EvTargetOpen => onTargetOpen
  | EvProxyMessage data => onProxyMessage data
  | EvTargetMessage data => onTargetMessage data
  | EvTargetClose code reason => onTargetClose code reason
  | EvProxyClose code reason => onProxyClose code reason
  | EvTargetError message => onTargetError message
  | EvTimeout => onTimeout
  end.

(** Platform: one turn of the event loop.  A timer cleared by
    [clearTimeout], or one that has fired already, does not fire. *)
Definition dispatch (e : Event) (s : Session) : list Action * Session :=
  match e with
  | EvTimeout => if timeoutId s then listener e (arrive e s) else ([], s)
  | _ => listener e (arrive e s)
  end.

(** A run of the event loop: the actions of all turns, in order. *)
Fixpoint run (es : list Event) (s : Session) : list Action * Session :=
  match es with
  | [] => ([], s)
  | e :: rest =>
      let first := dispatch e s in
      let others := run rest (snd first) in
      (fst first ++ fst others, snd others)
  end.

End Relay.

(** Lines 68-85: the session as [handleWebSocket] leaves it: [proxy]
    accepted, [targetWebSocket] just constructed, nothing pending, the
    timer scheduled. *)
Definition newSession : Session := mkSession [] CONNECTING OPEN true 0.

(** ** Requests, responses and what a call can end in *)

(** What the worker reads of a request: [request.headers.get('Upgrade')]
    and, of [new URL(request.url)], [pathname] and [search]. *)
Record Request : Type := mkRequest {
  upgrade : option string;
  pathname : string;
  search : string
}.

Record Response : Type := mkResponse {
  status : Z;
  body : option string;
  headers : list (string * string);
  webSocket : bool
}.

(** A value thrown, or a promise's rejection: [null] or [undefined], an
    instance of [Error], or any other value ([status] is [None] where the
    property is absent). *)
Inductive Thrown : Type :=
| Nullish
| ErrorObject (message : string) (status : option Z)
| OtherValue (message : option string) (status : option Z).

Inductive Completion (A : Type) : Type :=
| Return (a : A)
| Throw (e : Thrown).
Arguments Return {A} a.
Arguments Throw {A} e.

Definition RangeError (message : string) : Thrown := ErrorObject message None.
Definition TypeError (message : string) : Thrown := ErrorObject message None.

Definition optString_eqb (a : option string) (b : string) : bool :=
  match a with Some x => String.eqb x b | None => false end.

Fixpoint hasHeader (name : string) (hs : list (string * string)) : bool :=
  match hs with
  | [] => false
  | (n, _) :: rest => String.eqb n name || hasHeader name rest
  end.

Definition nullBodyStatus (st : Z) : bool :=
  (st =? 101)%Z || (st =? 103)%Z || (st =? 204)%Z || (st =? 205)%Z || (st =? 304)%Z.

(** Platform: [new Response(body, { status, headers, webSocket })].  The
    status defaults to 200 and has to lie in 200..599 (101 with a socket);
    a status without a body admits none; a text body without a content
    type is given [text/plain;charset=UTF-8]. *)
Definition new_Response (body : option string) (st : option Z)
    (hs : list (string * string)) (socket : bool) : Completion Response :=
  let code := match st with Some c => c | None => 200%Z end in
  if socket && negb (code =? 101)%Z then
    Throw (RangeError "Responses with a WebSocket must have status code 101.")
  else if negb socket && negb ((200 <=? code)%Z && (code <=? 599)%Z) then
    Throw (RangeError "Responses may only be constructed with status codes in the range 200 to 599, inclusive.")
  else
    match body with
    | None => Return (mkResponse code None hs socket)
    | Some text =>
        if nullBodyStatus code then
          Throw (TypeError "Response with null body status cannot have a body.")
        else if hasHeader "content-type" hs then
          Return (mkResponse code body hs socket)
        else
          Return (mkResponse code body
                    (hs ++ [("content-type", "text/plain;charset=UTF-8")]) socket)
    end.

(** ** [handleWebSocket] (lines 57-184) *)

(** What an accepted upgrade sets up: the URL of [targetWebSocket] and the
    session its listeners share. *)
Record Relay : Type := mkRelay {
  targetUrl : string;
  session : Session
}.

Definition handleWebSocket (request : Request)
  : Completion (Response * option Relay) :=
  if negb (optString_eqb (upgrade request) "websocket") then
    match new_Response (Some "Expected WebSocket connection") (Some 400%Z) [] false with
    | Return r => Return (r, None)
    | Throw e => Throw e
    end
  else
    let pathAndQuery := (pathname request ++ search request)%string in
    let url := ("wss://generativelanguage.googleapis.com" ++ pathAndQuery)%string in
    match new_Response None (Some 101%Z) [] true with
    | Return r => Return (r, Some (mkRelay url newSession))
    | Throw e => Throw e
    end.

(** ** [handleAPIRequest] (lines 186-206) *)

Inductive Settlement : Type :=
| Fulfils (response : Response)
| RejectsWith (error : Thrown).

(** How the forwarding call goes.  [api_proxy/worker.mjs] is another
    module: the import of it may fail, its [fetch] may throw before it
    returns a promise, and the promise settles [after] milliseconds,
    counted from the start of the guard's timer, or never. *)
Inductive ForwardCall : Type :=
| ImportFails (error : Thrown)
| FetchThrows (error : Thrown)
| Settles (after : Z) (how : Settlement)
| NeverSettles.

Definition timeoutError : Thrown := ErrorObject "API request timeout" None.

(** [error.status || 500] *)
Definition statusOr500 (st : option Z) : Z :=
  match st with
  | Some c => if (c =? 0)%Z then 500%Z else c
  | None => 500%Z
  end.

(** The [catch] block, lines 195-205.  Reading [error.status] of [null]
    or [undefined] throws. *)
Definition catchBlock (error : Thrown) : Completion Response :=
  let plain := [("content-type", "text/plain;charset=UTF-8")] in
  match error with
  | Nullish => Throw (TypeError "Cannot read properties of undefined (reading 'status')")
  | ErrorObject message st =>
      new_Response (Some message) (Some (statusOr500 st)) plain false
  | OtherValue _ st =>
      new_Response (Some "Unknown error occurred") (Some (statusOr500 st)) plain false
  end.

Section Guard.

(** Platform: who wins [Promise.race] when the forwarding call settles at
    the very millisecond of the deadline. *)
Variable tieToForward : bool.

(** [Promise.race([responsePromise, timeoutPromise])] *)
Definition race (after : Z) (how : Settlement) : Settlement :=
  if (after <? API_TIMEOUT)%Z then how
  else if (API_TIMEOUT <? after)%Z then RejectsWith timeoutError
  else if tieToForward then how
  else RejectsWith timeoutError.

Definition handleAPIRequest (call : ForwardCall) : Completion Response :=
  match call with
  | ImportFails error => catchBlock error
  | FetchThrows error => catchBlock error
  | Settles after how =>
      match race after how with
      | Fulfils response => Return response
      | RejectsWith error => catchBlock error
      end
  | NeverSettles => catchBlock timeoutError
  end.

(** ** The router, [fetch] (lines 6-54) *)

(** [s.endsWith(suffix)] *)
Definition endsWith (s suffix : string) : bool :=
  let n := String.length s in
  let m := String.length suffix in
  Nat.leb m n && String.eqb (substring (n - m) m s) suffix.

(** The forwarding module and the serving of static assets (lines 21-53)
    are outside of this development. *)
Variable forward : Request -> ForwardCall.
Variable serveStatic : Request -> Completion Response.

Definition fetch (request : Request) : Completion (Response * option Relay) :=
  if optString_eqb (upgrade request) "websocket" then
    handleWebSocket request
  else if endsWith (pathname request) "/chat/completions"
          || endsWith (pathname request) "/embeddings"
          || endsWith (pathname request) "/models" then
    match handleAPIRequest (forward request) with
    | Return r => Return (r, None)
    | Throw e => Throw e
    end
  else
    match serveStatic request with
    | Return r => Return (r, None)
    | Throw e => Throw e
    end.

End Guard.

(** ** Reading a list of actions *)

Definition Socket_eqb (a b : Socket) : bool :=
  match a, b with
  | proxy, proxy | targetWebSocket, targetWebSocket => true
  | _, _ => false
  end.

(** The frames handed to [sock.send], in the order of the calls. *)
Fixpoint sentTo (sock : Socket) (acts : list Action) : list Frame :=
  match acts with
  | [] => []
  | Send on data _ :: rest =>
      if Socket_eqb on sock then data :: sentTo sock rest else sentTo sock rest
  | _ :: rest => sentTo sock rest
  end.

(** The calls of [sock.close], in order. *)
Fixpoint closesOf (sock : Socket) (acts : list Action) : list (Z * string) :=
  match acts with
  | [] => []
  | Close on code reason :: rest =>
      if Socket_eqb on sock then (code, reason) :: closesOf sock rest
      else closesOf sock rest
  | _ :: rest => closesOf sock rest
  end.

(** The exceptions that left a listener. *)
Fixpoint uncaughtIn (acts : list Action) : list string :=
  match acts with
  | [] => []
  | Uncaught error :: rest => error :: uncaughtIn rest
  | _ :: rest => uncaughtIn rest
  end.


Definition isProxyMessage (e : Event) : bool :=
  match e with EvProxyMessage _ => true | _ => false end.

Definition isProxyClose (e : Event) : bool :=
  match e with EvProxyClose _ _ => true | _ => false end.

Definition bumpSends (n : nat) (s : Session) : Session :=
  mkSession (pendingMessages s) (targetReadyState s) (proxyReadyState s)
    (timeoutId s) (n + sendCalls s).

Definition isMessage (e : Event) : bool :=
  match e with EvProxyMessage _ | EvTargetMessage _ => true | _ => false end.

(** The events that can reach a session whose sockets are both alive and
    whose upstream socket is still connecting. *)
Definition whileConnecting (e : Event) : bool :=
  match e with
  | EvProxyMessage _ | EvTimeout | EvTargetError _ => true
  | _ => false
  end.


(** The frames of the client, and those of the upstream service, among
    the events of a run, in the order of arrival. *)
Fixpoint clientFrames (es : list Event) : list Frame :=
  match es with
  | [] => []
  | EvProxyMessage data :: rest => data :: clientFrames rest
  | _ :: rest => clientFrames rest
  end.

Fixpoint upstreamFrames (es : list Event) : list Frame :=
  match es with
  | [] => []
  | EvTargetMessage data :: rest => data :: upstreamFrames rest
  | _ :: rest => upstreamFrames rest
  end.


(** The turns of a run: the event of each, the session it found and the
    actions of its listener. *)
Fixpoint turns (send_throws : Socket -> Session -> Frame -> bool)
    (es : list Event) (s : Session) : list (Event * Session * list Action) :=
  match es with
  | [] => []
  | e :: rest =>
      (e, s, fst (dispatch send_throws e s))
        :: turns send_throws rest (snd (dispatch send_throws e s))
  end.

Definition neverThrows : Socket -> Session -> Frame -> bool := fun _ _ _ => false.
Definition alwaysThrows : Socket -> Session -> Frame -> bool := fun _ _ _ => true.

(** While the timer is scheduled the upstream socket has not opened: the
    "open" listener is the one place that makes it [OPEN], and it clears
    the timer. *)
Definition timerImpliesNotOpen (s : Session) : Prop :=
  timeoutId s = true -> targetReadyState s <> OPEN.

(** While the timer is scheduled something is pending. *)
Definition timerImpliesPending (s : Session) : Prop :=
  timeoutId s = true -> pendingMessages s <> [].

Definition bounded (s : Session) : Prop :=
  List.length (pendingMessages s) <= MAX_PENDING_MESSAGES.

Definition overflowClose : Z * string := (1008%Z, "Too many pending messages").

Definition closeIfOpenOrConnecting (r : ReadyState) : ReadyState :=
  match r with
  | CONNECTING | OPEN => CLOSING
  | CLOSING | CLOSED => r
  end.

(** ** Concrete sessions *)

Definition elevenFrames : list Frame :=
  map (fun n => TextFrame (decimal n)) (seq 1 11).

Definition lateFrame : list Event :=
  [EvProxyMessage (TextFrame "early"); EvTargetOpen;
   EvTargetClose 1000 "done"; EvProxyMessage (TextFrame "late")].

Definition plainText : list (string * string) :=
  [("content-type", "text/plain;charset=UTF-8")].



(** ** [getContentType] (lines 208-221) *)

(** [c.toLowerCase()] of one character of a path.  The [pathname] of a URL
    is percent-encoded, so a path holds ASCII only. *)
Definition lowerAscii (c : ascii) : ascii :=
  let n := nat_of_ascii c in
  if Nat.leb 65 n && Nat.leb n 90 then ascii_of_nat (n + 32) else c.

Fixpoint toLowerCase (s : string) : string :=
  match s with
  | EmptyString => EmptyString
  | String c rest => String (lowerAscii c) (toLowerCase rest)
  end.

(** [s.split(sep)] for a separator of one character: the pieces between
    the separators, of which there is always one at least. *)
Fixpoint splitOn (sep : ascii) (s : string) : list string :=
  match s with
  | EmptyString => [EmptyString]
  | String c rest =>
      if Ascii.eqb c sep then EmptyString :: splitOn sep rest
      else match splitOn sep rest with
           | [] => [String c EmptyString]
           | piece :: pieces => String c piece :: pieces
           end
  end.

Fixpoint hasChar (c : ascii) (s : string) : bool :=
  match s with
  | EmptyString => false
  | String d rest => Ascii.eqb d c || hasChar c rest
  end.

(** What [types[ext]] can be: a string of the table, or a member that the
    object literal inherits from [Object.prototype]. *)
Inductive Member : Type :=
| OwnString (value : string)
| Inherited (name : string).

(** The table of lines 210-219. *)
Definition types : list (string * string) :=
  [("js", "application/javascript"); ("css", "text/css"); ("html", "text/html");
   ("json", "application/json"); ("png", "image/png"); ("jpg", "image/jpeg");
   ("jpeg", "image/jpeg"); ("gif", "image/gif")].

(** Platform: the names every object literal inherits. *)
Definition objectPrototypeNames : list string :=
  ["constructor"; "__defineGetter__"; "__defineSetter__"; "hasOwnProperty";
   "__lookupGetter__"; "__lookupSetter__"; "isPrototypeOf";
   "propertyIsEnumerable"; "toString"; "valueOf"; "__proto__"; "toLocaleString"].

Fixpoint ownProperty (key : string) (table : list (string * string)) : option string :=
  match table with
  | [] => None
  | (k, v) :: rest => if String.eqb k key then Some v else ownProperty key rest
  end.

(** [types[ext]]: [None] is [undefined]. *)
Definition typesLookup (ext : string) : option Member :=
  match ownProperty ext types with
  | Some v => Some (OwnString v)
  | None =>
      if existsb (String.eqb ext) objectPrototypeNames
      then Some (Inherited ext) else None
  end.

(** Every member [typesLookup] finds is truthy, so [||] falls back to
    ['text/plain'] on [undefined] only. *)
Definition getContentType (path : string) : Member :=
  let ext := toLowerCase (last (splitOn "."%char path) EmptyString) in
  match typesLookup ext with
  | Some member => member
  | None => OwnString "text/plain"
  end.

(** ** The static assets of [fetch] (lines 21-53) *)

(** [s.slice(1)] *)
Definition slice1 (s : string) : string :=
  match s with
  | EmptyString => EmptyString
  | String _ rest => rest
  end.

Definition isIndex (path : string) : bool :=
  String.eqb path "/" || String.eqb path "/index.html".

Definition indexHeaders : list (string * string) :=
  [("content-type", "text/html;charset=UTF-8");
   ("Cache-Control", ("public, max-age=" ++ decimal (Z.to_nat CACHE_TTL))%string)].

Section Static.

(** Platform: [env.__STATIC_CONTENT.get(key)], [None] for [null]; what
    [caches.default.match(cacheKey)] finds for a request; and how a header
    is written from a value that is not a string. *)
Variable STATIC_CONTENT : string -> option string.
Variable cacheMatch : Request -> option Response.
Variable headerText : Member -> string.

(** Lines 21-53.  The result is the response and, when the index page was
    built, the copy handed to [cache.put]. *)
Definition handleStatic (request : Request)
  : Completion (Response * option Response) :=
  if isIndex (pathname request) then
    match cacheMatch request with
    | Some response => Return (response, None)
    | None =>
        match new_Response (STATIC_CONTENT "index.html") None indexHeaders false with
        | Return response => Return (response, Some response)
        | Throw e => Throw e
        end
    end
  else
    match STATIC_CONTENT (slice1 (pathname request)) with
    | Some (String c rest) =>
        let contentType := getContentType (pathname request) in
        let value := match contentType with
                     | OwnString text => text
                     | Inherited _ => headerText contentType
                     end in
        match new_Response (Some (String c rest)) None
                [("content-type", value)] false with
        | Return response => Return (response, None)
        | Throw e => Throw e
        end
    | Some EmptyString | None =>
        match new_Response (Some "Not found") (Some 404%Z) [] false with
        | Return response => Return (response, None)
        | Throw e => Throw e
        end
    end.

(** [handleStatic] as the last branch of [fetch]. *)
Definition serveStaticAssets (request : Request) : Completion Response :=
  match handleStatic request with
  | Return (response, _) => Return response
  | Throw e => Throw e
  end.

End Static.

(** ** Reading runs: order and provenance *)

(** [Subseq small big]: [small] is [big] with some elements left out, the
    others in their order. *)
Inductive Subseq {A : Type} : list A -> list A -> Prop :=
| Subseq_nil : Subseq [] []
| Subseq_skip (x : A) (small big : list A) :
    Subseq small big -> Subseq small (x :: big)
| Subseq_keep (x : A) (small big : list A) :
    Subseq small big -> Subseq (x :: small) (x :: big).

(** While the upstream socket is open nothing is pending. *)
Definition openImpliesDrained (s : Session) : Prop :=
  targetReadyState s = OPEN -> pendingMessages s = [].

Definition isTimeout (e : Event) : bool :=
  match e with EvTimeout => true | _ => false end.

Definition isTargetOpen (e : Event) : bool :=
  match e with EvTargetOpen => true | _ => false end.

(** The events that leave an idle session idle: no client frame, no
    opening of the upstream socket, no firing of the timer. *)
Definition keepsIdle (e : Event) : bool :=
  negb (isProxyMessage e || isTargetOpen e || isTimeout e).

(** * Properties *)

Lemma sentTo_app sock a b : sentTo sock (a ++ b) = sentTo sock a ++ sentTo sock b.
Proof.
  induction a as [|x a IH]; simpl; [reflexivity|].
  destruct x; simpl; try apply IH.
  destruct (Socket_eqb on sock); simpl; now rewrite IH.
Qed.

Lemma closesOf_app sock a b :
  closesOf sock (a ++ b) = closesOf sock a ++ closesOf sock b.
Proof.
  induction a as [|x a IH]; simpl; [reflexivity|].
  destruct x; simpl; try apply IH.
  destruct (Socket_eqb on sock); simpl; now rewrite IH.
Qed.

Ltac unfold_handlers :=
  unfold dispatch, listener, arrive, onTimeout, onTargetOpen, onProxyMessage,
    onTargetMessage, onTargetClose, onProxyClose, onTargetError, closeSocket,
    trySend, andThen, emit, modify, ifThenElse, skip in *.

Lemma andThen_eq (h k : Handler) (s : Session) :
  (h ;; k) s = (fst (h s) ++ fst (k (snd (h s))), snd (k (snd (h s)))).
Proof. reflexivity. Qed.

Ltac session_cbn :=
  cbn [setReadyState setTimer setPending countSend readyState isOpen
       pendingMessages targetReadyState proxyReadyState timeoutId sendCalls
       fst snd app] in *.

(** Runs a listener other than the "open" one by cases on everything it
    tests: the states of the sockets, the timer, the length of the buffer
    and whether a [send] throws. *)
Ltac by_cases s :=
  unfold_handlers;
  try change (validCloseCode 1000%Z) with true in *;
  try change (validCloseCode 1008%Z) with true in *;
  destruct s as [pend tgt prx tmr cnt]; session_cbn;
  repeat (match goal with
          | |- context [isOpen ?x] => is_var x; destruct x eqn:?
          | |- context [match ?x with _ => _ end] => is_var x; destruct x eqn:?
          | |- context [if ?c then _ else _] =>
              lazymatch c with
              | context [match _ with _ => _ end] => fail
              | _ => destruct c eqn:?
              end
          end;
          session_cbn).

Section RelayProperties.

Variable send_throws : Socket -> Session -> Frame -> bool.

Lemma trySend_spec sock data ok ko s :
  sentTo sock (fst (trySend send_throws sock data ok ko s)) = [data]
  /\ (forall other, other <> sock ->
        sentTo other (fst (trySend send_throws sock data ok ko s)) = [])
  /\ (forall any, closesOf any (fst (trySend send_throws sock data ok ko s)) = [])
  /\ snd (trySend send_throws sock data ok ko s) = countSend s.
Proof.
  unfold trySend.
  destruct (send_throws sock s data); cbn [fst snd]; repeat split;
    try (intros other Hne; destruct other, sock; simpl; congruence);
    destruct sock; reflexivity.
Qed.

(** The loop calls [send] once for each pending frame, in order, whatever
    each call does, and touches nothing else. *)
Lemma drain_spec (ms : list Frame) (s : Session) :
  sentTo targetWebSocket (fst (drain send_throws ms s)) = ms
  /\ sentTo proxy (fst (drain send_throws ms s)) = []
  /\ (forall any, closesOf any (fst (drain send_throws ms s)) = [])
  /\ snd (drain send_throws ms s) = bumpSends (List.length ms) s.
Proof.
  revert s; induction ms as [|m ms IH]; intros s.
  - simpl. repeat split. destruct s; reflexivity.
  - unfold drain in *. cbn [forEach]. rewrite andThen_eq. cbn [fst snd].
    destruct (trySend_spec targetWebSocket m "Sent pending message:"
                "Error sending pending message:" s) as (A1 & A2 & A3 & A4).
    rewrite A4. destruct (IH (countSend s)) as (B1 & B2 & B3 & B4).
    rewrite !sentTo_app, A1, B1, B2, B4, (A2 proxy) by discriminate.
    repeat split.
    + intros any. now rewrite closesOf_app, A3, B3.
    + destruct s; unfold bumpSends, countSend; simpl. f_equal. lia.
Qed.

(** What the "open" event leaves: every pending frame handed to
    [targetWebSocket.send] in order, the timer cleared, the buffer empty. *)
Lemma dispatch_open (s : Session) :
  sentTo targetWebSocket (fst (dispatch send_throws EvTargetOpen s)) = pendingMessages s
  /\ sentTo proxy (fst (dispatch send_throws EvTargetOpen s)) = []
  /\ (forall any, closesOf any (fst (dispatch send_throws EvTargetOpen s)) = [])
  /\ snd (dispatch send_throws EvTargetOpen s)
     = mkSession [] OPEN (proxyReadyState s) false
         (List.length (pendingMessages s) + sendCalls s).
Proof.
  unfold dispatch, listener, arrive, onTargetOpen.
  rewrite !andThen_eq. unfold emit, modify. cbn [fst snd].
  cbn [setReadyState setTimer pendingMessages targetReadyState proxyReadyState
       timeoutId sendCalls].
  set (s0 := setTimer false _).
  destruct (drain_spec (pendingMessages s) s0) as (B1 & B2 & B3 & B4).
  fold (drain send_throws (pendingMessages s)).
  rewrite B4. cbn [sentTo closesOf app]. rewrite !app_nil_r, B1, B2.
  repeat split. intros any. cbn. now rewrite B3.
Qed.

Lemma run_app (es1 es2 : list Event) (s : Session) :
  run send_throws (es1 ++ es2) s
  = (fst (run send_throws es1 s)
       ++ fst (run send_throws es2 (snd (run send_throws es1 s))),
     snd (run send_throws es2 (snd (run send_throws es1 s)))).
Proof.
  revert s; induction es1 as [|e es1 IH]; intros s; cbn [run app].
  - cbn [fst snd app]. now destruct (run send_throws es2 s).
  - cbv zeta. rewrite IH. cbn [fst snd]. now rewrite app_assoc.
Qed.

Lemma run_cons (e : Event) (es : list Event) (s : Session) :
  run send_throws (e :: es) s
  = (fst (dispatch send_throws e s)
       ++ fst (run send_throws es (snd (dispatch send_throws e s))),
     snd (run send_throws es (snd (dispatch send_throws e s)))).
Proof.
  reflexivity.
Qed.

(** *** Invariants of the event loop *)

Lemma dispatch_timerImpliesNotOpen e s :
  timerImpliesNotOpen s -> timerImpliesNotOpen (snd (dispatch send_throws e s)).
Proof.
  unfold timerImpliesNotOpen. destruct e;
    [ destruct (dispatch_open s) as (_ & _ & _ & ->); cbn; discriminate
    | by_cases s; intros H T; try (specialize (H T)); congruence .. ].
Qed.

Lemma dispatch_timerImpliesPending e s :
  timerImpliesPending s -> timerImpliesPending (snd (dispatch send_throws e s)).
Proof.
  unfold timerImpliesPending. destruct e;
    [ destruct (dispatch_open s) as (_ & _ & _ & ->); cbn; discriminate
    | by_cases s; intros H T; try (specialize (H T));
      try congruence; try (destruct pend; discriminate) .. ].
Qed.

Lemma dispatch_bounded e s :
  bounded s -> bounded (snd (dispatch send_throws e s)).
Proof.
  unfold bounded. destruct e;
    [ destruct (dispatch_open s) as (_ & _ & _ & ->); cbn; intros _;
      unfold MAX_PENDING_MESSAGES; lia
    | by_cases s; intros H; try exact H .. ].
  all: rewrite length_app; cbn [List.length].
  all: match goal with L : Nat.leb _ _ = false |- _ => apply Nat.leb_gt in L end.
  all: lia.
Qed.

Lemma run_invariant (P : Session -> Prop) :
  (forall e s, P s -> P (snd (dispatch send_throws e s))) ->
  forall es s, P s -> P (snd (run send_throws es s)).
Proof.
  intros step es; induction es as [|e es IH]; intros s Hs.
  - exact Hs.
  - rewrite run_cons. cbn [snd]. apply IH, step, Hs.
Qed.

(** A client frame that arrives while the timer is scheduled finds the
    upstream socket not open, and so leaves the buffer non-empty. *)
Lemma message_makes_pending data s :
  timerImpliesNotOpen s ->
  timerImpliesPending (snd (dispatch send_throws (EvProxyMessage data) s)).
Proof.
  unfold timerImpliesNotOpen, timerImpliesPending.
  by_cases s; intros H T; try (specialize (H T)); try congruence;
    try (destruct pend; discriminate).
  all: intros ->; discriminate.
Qed.

(** *** Client frames while the upstream socket is not open *)

Lemma message_while_not_open data s :
  targetReadyState s <> OPEN ->
  let r := dispatch send_throws (EvProxyMessage data) s in
  (forall any, sentTo any (fst r) = [])
  /\ closesOf targetWebSocket (fst r) = []
  /\ targetReadyState (snd r) = targetReadyState s
  /\ (if Nat.leb MAX_PENDING_MESSAGES (List.length (pendingMessages s))
      then closesOf proxy (fst r) = [overflowClose]
           /\ pendingMessages (snd r) = pendingMessages s
           /\ proxyReadyState (snd r) = closeIfOpenOrConnecting (proxyReadyState s)
      else closesOf proxy (fst r) = []
           /\ pendingMessages (snd r) = pendingMessages s ++ [data]
           /\ proxyReadyState (snd r) = proxyReadyState s).
Proof.
  intros H. by_cases s; try congruence; repeat split; intros [] ; reflexivity.
Qed.

Lemma idle_while_not_open (e : Event) (s : Session) :
  e = EvTimeout \/ (exists message, e = EvTargetError message) ->
  targetReadyState s <> OPEN ->
  let r := dispatch send_throws e s in
  (forall any, sentTo any (fst r) = [])
  /\ closesOf proxy (fst r) = []
  /\ targetReadyState (snd r) <> OPEN
  /\ pendingMessages (snd r) = pendingMessages s
  /\ proxyReadyState (snd r) = proxyReadyState s.
Proof.
  intros [-> | [message ->]] H; by_cases s; repeat split;
    try congruence; try discriminate; intros []; reflexivity.
Qed.

Lemma connecting_phase (es : list Event) (s : Session) :
  forallb whileConnecting es = true ->
  targetReadyState s <> OPEN ->
  let r := run send_throws es s in
  let room := MAX_PENDING_MESSAGES - List.length (pendingMessages s) in
  let fs := clientFrames es in
  (forall any, sentTo any (fst r) = [])
  /\ targetReadyState (snd r) <> OPEN
  /\ pendingMessages (snd r) = pendingMessages s ++ firstn room fs
  /\ closesOf proxy (fst r) = repeat overflowClose (List.length fs - room)
  /\ (List.length fs <= room -> proxyReadyState (snd r) = proxyReadyState s)
  /\ (room < List.length fs ->
      proxyReadyState (snd r) = closeIfOpenOrConnecting (proxyReadyState s)).
Proof.
  revert s; induction es as [|e es IH]; intros s Hes Hs; cbv zeta.
  - cbn. rewrite firstn_nil, app_nil_r. repeat split; intros; try lia.
    exact Hs.
  - cbn [forallb] in Hes. apply andb_true_iff in Hes as [He Hes].
    rewrite run_cons. cbn [fst snd].
    set (s1 := snd (dispatch send_throws e s)) in *.
    assert (K : (exists m, e = EvProxyMessage m)
                \/ (e = EvTimeout \/ exists message, e = EvTargetError message)).
    { destruct e; try discriminate; eauto. }
    destruct K as [[m ->] | K].
    + destruct (message_while_not_open m s Hs) as (A1 & A2 & A3 & A4).
      cbv zeta in A1, A2, A3, A4. fold s1 in A1, A2, A3, A4.
      assert (Hs1 : targetReadyState s1 <> OPEN) by congruence.
      destruct (IH s1 Hes Hs1) as (B1 & B2 & B3 & B4 & B5 & B6).
      cbv zeta in B1, B2, B3, B4, B5, B6.
      rewrite B3, closesOf_app, B4. cbn [clientFrames].
      destruct (Nat.leb _ _) eqn:L; destruct A4 as (C1 & C2 & C3);
        rewrite C1, C2 in *; [apply Nat.leb_le in L | apply Nat.leb_gt in L].
      * replace (MAX_PENDING_MESSAGES - List.length (pendingMessages s)) with 0 in * by lia.
        cbn [firstn List.length]. rewrite !Nat.sub_0_r in *.
        repeat split; try (intros; lia); try exact B2.
        -- intros any. now rewrite sentTo_app, A1, B1.
        -- intros _. destruct (clientFrames es) as [|m' fs].
           ++ rewrite B5 by (cbn; lia). exact C3.
           ++ rewrite B6 by (cbn; lia). rewrite C3.
              now destruct (proxyReadyState s).
      * rewrite length_app in *. cbn [List.length] in *.
        destruct (MAX_PENDING_MESSAGES - List.length (pendingMessages s)) as [|k] eqn:E;
          [lia|].
        replace (MAX_PENDING_MESSAGES - (List.length (pendingMessages s) + 1)) with k in * by lia.
        cbn [firstn]. rewrite <- app_assoc. cbn [app Nat.sub].
        repeat split; try exact B2.
        -- intros any. now rewrite sentTo_app, A1, B1.
        -- intros Hle. rewrite B5 by lia. exact C3.
        -- intros Hlt. rewrite B6 by lia. now rewrite C3.
    + destruct (idle_while_not_open e s K Hs) as (A1 & A2 & A3 & A4 & A5).
      cbv zeta in A1, A2, A3, A4, A5. fold s1 in A1, A2, A3, A4, A5.
      destruct (IH s1 Hes A3) as (B1 & B2 & B3 & B4 & B5 & B6).
      cbv zeta in B1, B2, B3, B4, B5, B6. rewrite A4, A5 in *.
      assert (F : clientFrames (e :: es) = clientFrames es)
        by (destruct K as [-> | [message ->]]; reflexivity).
      rewrite F, closesOf_app, A2. cbn [app].
      repeat split; try assumption.
      intros any. now rewrite sentTo_app, A1, B1.
Qed.

(** *** Events other than client frames *)



(** C4. Once a client frame has arrived in a session, whatever came
    before it and whatever comes after, the firing of the timer does
    nothing at all: it calls no [close] and leaves both sockets as they
    are. *)
Theorem liveness_overrides_timeout (before after : list Event) (data : Frame) :
  let s := snd (run send_throws (before ++ EvProxyMessage data :: after) newSession) in
  fst (dispatch send_throws EvTimeout s) = []
  /\ targetReadyState (snd (dispatch send_throws EvTimeout s)) = targetReadyState s
  /\ proxyReadyState (snd (dispatch send_throws EvTimeout s)) = proxyReadyState s.
Proof.
  intros s.
  assert (P : timerImpliesPending s).
  { unfold s. rewrite run_app. cbn [snd]. rewrite run_cons. cbn [snd].
    apply (run_invariant _ dispatch_timerImpliesPending).
    apply message_makes_pending.
    apply (run_invariant _ dispatch_timerImpliesNotOpen).
    unfold timerImpliesNotOpen. discriminate. }
  unfold timerImpliesPending in P. clearbody s.
  by_cases s; try (repeat split; reflexivity).
  all: destruct pend; [now specialize (P eq_refl) | discriminate].
Qed.

(** *** Pass-through *)

Lemma pass_through (post : list Event) (s : Session) :
  forallb isMessage post = true ->
  targetReadyState s = OPEN -> proxyReadyState s = OPEN ->
  sentTo targetWebSocket (fst (run send_throws post s)) = clientFrames post
  /\ sentTo proxy (fst (run send_throws post s)) = upstreamFrames post.
Proof.
  revert s; induction post as [|e post IH]; intros s H T P.
  - split; reflexivity.
  - cbn [forallb] in H. apply andb_true_iff in H as [He Hpost].
    rewrite run_cons. cbn [fst snd]. rewrite !sentTo_app.
    assert (D : targetReadyState (snd (dispatch send_throws e s)) = OPEN
                /\ proxyReadyState (snd (dispatch send_throws e s)) = OPEN
                /\ sentTo targetWebSocket (fst (dispatch send_throws e s))
                   = clientFrames [e]
                /\ sentTo proxy (fst (dispatch send_throws e s))
                   = upstreamFrames [e]).
    { destruct e; try discriminate; by_cases s; try discriminate;
        repeat split; assumption. }
    destruct D as (D1 & D2 & D3 & D4).
    destruct (IH _ Hpost D1 D2) as [-> ->]. rewrite D3, D4.
    destruct e; try discriminate; split; reflexivity.
Qed.

(** C2, amended. At most [MAX_PENDING_MESSAGES] client frames arrive in a
    new session while the upstream socket is connecting: nothing is sent
    upstream until it opens; once it has opened, and while frames are all
    that arrives, [targetWebSocket.send] has been called with exactly
    those frames in their order of arrival, followed by the client's
    later frames in theirs, and [proxy.send] with exactly the upstream
    frames in theirs: one call for each frame, none reordered, batched or
    coalesced. *)
Theorem order_preservation (arrivals post : list Event) :
  forallb whileConnecting arrivals = true ->
  List.length (clientFrames arrivals) <= MAX_PENDING_MESSAGES ->
  forallb isMessage post = true ->
  let before := run send_throws arrivals newSession in
  let whole := run send_throws (arrivals ++ EvTargetOpen :: post) newSession in
  sentTo targetWebSocket (fst before) = []
  /\ sentTo targetWebSocket (fst whole) = clientFrames arrivals ++ clientFrames post
  /\ sentTo proxy (fst whole) = upstreamFrames post.
Proof.
  intros Harr Hlen Hpost before whole.
  assert (Hnew : targetReadyState newSession <> OPEN) by discriminate.
  destruct (connecting_phase arrivals newSession Harr Hnew)
    as (A1 & _ & A4 & _ & A6 & _).
  cbv zeta in A1, A4, A6. fold before in A1, A4, A6.
  cbn [newSession pendingMessages proxyReadyState List.length app] in A4, A6.
  rewrite Nat.sub_0_r in *. rewrite firstn_all2 in A4 by exact Hlen.
  specialize (A6 Hlen).
  split; [apply A1|].
  unfold whole. rewrite run_app, run_cons. cbn [fst snd]. fold before.
  rewrite !sentTo_app, !A1.
  destruct (dispatch_open (snd before)) as (B1 & B2 & _ & B4).
  rewrite B1, B2, B4, A4, A6.
  destruct (pass_through post
              (mkSession [] OPEN OPEN false
                 (List.length (clientFrames arrivals) + sendCalls (snd before)))
              Hpost eq_refl eq_refl) as [-> ->].
  split; reflexivity.
Qed.

(** C3, amended. When the timer fires on an empty buffer the listener
    calls [targetWebSocket.close(1000, 'No activity after connection')],
    the reason with a capital N, and the upstream socket starts closing;
    when it fires on a buffer that is not empty the listener does
    nothing. *)
Theorem timer_fires (s : Session) :
  timeoutId s = true ->
  (pendingMessages s = [] ->
     fst (dispatch send_throws EvTimeout s)
     = [ConsoleLog "WebSocket connection timeout";
        Close targetWebSocket 1000 "No activity after connection"]
     /\ targetReadyState (snd (dispatch send_throws EvTimeout s))
        = closeIfOpenOrConnecting (targetReadyState s)
     /\ proxyReadyState (snd (dispatch send_throws EvTimeout s))
        = proxyReadyState s)
  /\ (pendingMessages s <> [] ->
      dispatch send_throws EvTimeout s = ([], setTimer false s)).
Proof.
  intros T. by_cases s; try discriminate; split; intros H; subst;
    try discriminate; try (repeat split; reflexivity); try congruence.
  all: destruct pend; [congruence | discriminate].
Qed.

(** C5, amended. A "close" event of either socket calls [close] on the
    other one with the same code and reason if that one is open, and
    calls nothing if it is not; when the code is one that [close]
    accepts, the call does not throw and the other socket starts closing.
    An "error" event of the upstream socket is logged and calls no
    [close] at all. *)
Theorem close_is_mirrored (s : Session) (code : Z) (reason : string) :
  validCloseCode code = true ->
  (let r := dispatch send_throws (EvTargetClose code reason) s in
   closesOf proxy (fst r)
   = (if isOpen (proxyReadyState s) then [(code, reason)] else [])
   /\ closesOf targetWebSocket (fst r) = []
   /\ uncaughtIn (fst r) = []
   /\ proxyReadyState (snd r)
      = (if isOpen (proxyReadyState s) then CLOSING else proxyReadyState s))
  /\ (let r := dispatch send_throws (EvProxyClose code reason) s in
      closesOf targetWebSocket (fst r)
      = (if isOpen (targetReadyState s) then [(code, reason)] else [])
      /\ closesOf proxy (fst r) = []
      /\ uncaughtIn (fst r) = []
      /\ targetReadyState (snd r)
         = (if isOpen (targetReadyState s) then CLOSING else targetReadyState s))
  /\ (forall message,
        fst (dispatch send_throws (EvTargetError message) s)
        = [ConsoleError "Target server WebSocket error:"]
        /\ snd (dispatch send_throws (EvTargetError message) s) = s).
Proof.
  intros V. split; [|split]; cbv zeta; try intros message;
    by_cases s; try congruence; repeat split.
Qed.

(** *** Who closes the upstream socket *)

Lemma upstream_closed_by (e : Event) (s : Session) :
  isProxyClose e = false ->
  closesOf targetWebSocket (fst (dispatch send_throws e s)) <> [] ->
  e = EvTimeout /\ timeoutId s = true /\ pendingMessages s = []
  /\ closesOf targetWebSocket (fst (dispatch send_throws e s))
     = [(1000%Z, "No activity after connection")].
Proof.
  intros C. destruct e; try discriminate.
  - destruct (dispatch_open s) as (_ & _ & -> & _). congruence.
  - by_cases s; cbn; congruence.
  - by_cases s; cbn; congruence.
  - by_cases s; cbn; congruence.
  - by_cases s; cbn; congruence.
  - by_cases s; cbn; try congruence; intros _; repeat split;
      destruct pend; try reflexivity; discriminate.
Qed.

(** C10. The client socket closes while the upstream socket is still
    connecting: the "close" listener of [proxy] calls no
    [targetWebSocket.close] and leaves the upstream socket connecting;
    in whatever follows (the client socket does not close twice), a turn
    in which [targetWebSocket.close] is called is a firing of the
    scheduled timer on an empty buffer, with code 1000. *)
Theorem client_close_while_connecting
    (s : Session) (code : Z) (reason : string) (rest : list Event) :
  targetReadyState s = CONNECTING ->
  forallb (fun e => negb (isProxyClose e)) rest = true ->
  let r := dispatch send_throws (EvProxyClose code reason) s in
  closesOf targetWebSocket (fst r) = []
  /\ targetReadyState (snd r) = CONNECTING
  /\ forall e s0 acts,
       In (e, s0, acts) (turns send_throws rest (snd r)) ->
       closesOf targetWebSocket acts <> [] ->
       e = EvTimeout /\ timeoutId s0 = true /\ pendingMessages s0 = []
       /\ closesOf targetWebSocket acts = [(1000%Z, "No activity after connection")].
Proof.
  intros T Hrest r. split; [|split].
  - unfold r. by_cases s; try discriminate; reflexivity.
  - unfold r. by_cases s; try discriminate; reflexivity.
  - generalize (snd r). clear r T s.
    induction rest as [|e rest IH]; intros s e0 s0 acts Hin Hc; [destruct Hin|].
    cbn [forallb] in Hrest. apply andb_true_iff in Hrest as [He Hrest].
    apply negb_true_iff in He. cbn [turns] in Hin. destruct Hin as [Heq | Hin].
    + inversion Heq; subst. now apply upstream_closed_by.
    + exact (IH Hrest _ _ _ _ Hin Hc).
Qed.

End RelayProperties.

(** *** Sends that throw *)








(** C6. The buffer never grows beyond [MAX_PENDING_MESSAGES] in any run
    of a new session.  But it is written to again after the drain: when
    the upstream socket has opened and closed, a client frame that is
    still delivered is queued, and nothing sends it. *)
Theorem buffer_after_drain :
  (forall send_throws es,
     List.length (pendingMessages (snd (run send_throws es newSession)))
     <= MAX_PENDING_MESSAGES)
  /\ pendingMessages (snd (run neverThrows (firstn 3 lateFrame) newSession)) = []
  /\ pendingMessages (snd (run neverThrows lateFrame newSession)) = [TextFrame "late"]
  /\ sentTo targetWebSocket (fst (run neverThrows lateFrame newSession))
     = [TextFrame "early"].
Proof.
  split.
  - intros send_throws es.
    apply (run_invariant send_throws (bounded) (dispatch_bounded send_throws)).
    unfold bounded, MAX_PENDING_MESSAGES. cbn. lia.
  - repeat split.
Qed.

(** C2 as stated fails at eleven frames: the upstream socket is sent the
    first ten of them only. *)
Lemma order_preservation_counterexample :
  sentTo targetWebSocket
    (fst (run neverThrows (map EvProxyMessage elevenFrames ++ [EvTargetOpen]) newSession))
  = firstn 10 elevenFrames
  /\ sentTo targetWebSocket
       (fst (run neverThrows (map EvProxyMessage elevenFrames ++ [EvTargetOpen]) newSession))
     <> elevenFrames.
Proof. split; [reflexivity | discriminate]. Qed.

Lemma order_preservation_witness :
  let fs := [TextFrame "setup"; BinaryFrame [Byte.x01; Byte.x02]] in
  let post := [EvTargetMessage (TextFrame "ready"); EvProxyMessage (TextFrame "turn");
               EvTargetMessage (TextFrame "answer")] in
  forallb whileConnecting (map EvProxyMessage fs) = true
  /\ List.length (clientFrames (map EvProxyMessage fs)) <= MAX_PENDING_MESSAGES
  /\ forallb isMessage post = true
  /\ sentTo targetWebSocket
       (fst (run alwaysThrows (map EvProxyMessage fs ++ EvTargetOpen :: post) newSession))
     = fs ++ [TextFrame "turn"]
  /\ sentTo proxy
       (fst (run alwaysThrows (map EvProxyMessage fs ++ EvTargetOpen :: post) newSession))
     = [TextFrame "ready"; TextFrame "answer"].
Proof.
  intros fs post.
  assert (L : List.length (clientFrames (map EvProxyMessage fs)) <= MAX_PENDING_MESSAGES)
    by (unfold fs, MAX_PENDING_MESSAGES; cbn; lia).
  split; [reflexivity|]. split; [exact L|]. split; [reflexivity|].
  pose proof (order_preservation alwaysThrows (map EvProxyMessage fs) post
                eq_refl L eq_refl) as H.
  cbv zeta in H. destruct H as (_ & H2 & H3). split; assumption.
Defined.

(** C3 as stated fails on the reason: the listener does not close with
    the reason in lower case. *)
Lemma timer_fires_counterexample :
  timeoutId newSession = true /\ pendingMessages newSession = []
  /\ ~ In (Close targetWebSocket 1000 "no activity after connection")
         (fst (dispatch neverThrows EvTimeout newSession)).
Proof.
  split; [reflexivity|]. split; [reflexivity|].
  cbn. intros [H | [H | []]]; discriminate.
Qed.

Lemma timer_fires_witness :
  timeoutId newSession = true
  /\ pendingMessages newSession = []
  /\ fst (dispatch neverThrows EvTimeout newSession)
     = [ConsoleLog "WebSocket connection timeout";
        Close targetWebSocket 1000 "No activity after connection"].
Proof.
  split; [reflexivity|]. split; [reflexivity|].
  apply (proj1 (timer_fires neverThrows newSession eq_refl)). reflexivity.
Defined.

(** C5 as stated fails on the "error" event: with the client socket open,
    an error of the upstream socket closes nothing.  It fails too on a
    "close" event that reports code 1006: [proxy.close] is called with it
    and throws, and the client socket stays open. *)
Lemma close_is_mirrored_counterexample :
  proxyReadyState newSession = OPEN
  /\ closesOf proxy (fst (dispatch neverThrows (EvTargetError "boom") newSession)) = []
  /\ proxyReadyState (snd (dispatch neverThrows (EvTargetError "boom") newSession)) = OPEN
  /\ fst (dispatch neverThrows (EvTargetClose 1006 "") newSession)
     = [ConsoleLog "Target server connection closed:"; Close proxy 1006 "";
        Uncaught "Invalid WebSocket close code"]
  /\ proxyReadyState (snd (dispatch neverThrows (EvTargetClose 1006 "") newSession)) = OPEN.
Proof. repeat split. Qed.

Lemma close_is_mirrored_witness :
  validCloseCode 1000 = true
  /\ closesOf proxy (fst (dispatch neverThrows (EvTargetClose 1000 "bye") newSession))
     = [(1000%Z, "bye")]
  /\ proxyReadyState (snd (dispatch neverThrows (EvTargetClose 1000 "bye") newSession))
     = CLOSING.
Proof.
  split; [reflexivity|].
  pose proof (proj1 (close_is_mirrored neverThrows newSession 1000 "bye" eq_refl)) as H.
  cbv zeta in H. destruct H as (H1 & _ & _ & H4). split; assumption.
Defined.


Lemma client_close_while_connecting_witness :
  targetReadyState newSession = CONNECTING
  /\ forallb (fun e => negb (isProxyClose e)) [EvTimeout] = true
  /\ closesOf targetWebSocket
       (fst (dispatch neverThrows (EvProxyClose 1000 "bye") newSession)) = []
  /\ targetReadyState
       (snd (dispatch neverThrows (EvProxyClose 1000 "bye") newSession)) = CONNECTING.
Proof.
  split; [reflexivity|]. split; [reflexivity|].
  pose proof (client_close_while_connecting neverThrows newSession 1000 "bye"
                [EvTimeout] eq_refl eq_refl) as H.
  cbv zeta in H. destruct H as (H1 & H2 & _). split; assumption.
Defined.

(** ** The guard and the router *)








Lemma optString_eqb_false (a : option string) (b : string) :
  a <> Some b -> optString_eqb a b = false.
Proof.
  destruct a as [x|]; cbn; [|reflexivity]. intros H.
  destruct (String.eqb_spec x b); [subst; congruence | reflexivity].
Qed.

(** The router hands [handleWebSocket] no request but one that carries
    [Upgrade: websocket]: any other goes to the guard or to the static
    assets, whatever its path. *)
Lemma fetch_without_upgrade tie forward serveStatic (request : Request) :
  upgrade request <> Some "websocket" ->
  fetch tie forward serveStatic request
  = if endsWith (pathname request) "/chat/completions"
       || endsWith (pathname request) "/embeddings"
       || endsWith (pathname request) "/models"
    then match handleAPIRequest tie (forward request) with
         | Return r => Return (r, None)
         | Throw e => Throw e
         end
    else match serveStatic request with
         | Return r => Return (r, None)
         | Throw e => Throw e
         end.
Proof.
  intros H. unfold fetch. now rewrite optString_eqb_false.
Qed.

(** C9, amended. A request that does not carry [Upgrade: websocket]
    never reaches the socket handler and so never receives its 400: the
    router answers it with what the guard answers, if its path has one of
    the API endings, and with what the static assets answer otherwise.
    [handleWebSocket] itself, given such a request, answers status 400
    with the plain-text body "Expected WebSocket connection" and sets up
    no session. *)
Theorem malformed_upgrade_rejected
    (tie : bool) (forward : Request -> ForwardCall)
    (serveStatic : Request -> Completion Response) (request : Request) :
  upgrade request <> Some "websocket" ->
  handleWebSocket request
  = Return (mkResponse 400 (Some "Expected WebSocket connection") plainText false,
            None)
  /\ fetch tie forward serveStatic request
     = (if endsWith (pathname request) "/chat/completions"
           || endsWith (pathname request) "/embeddings"
           || endsWith (pathname request) "/models"
        then match handleAPIRequest tie (forward request) with
             | Return r => Return (r, None)
             | Throw e => Throw e
             end
        else match serveStatic request with
             | Return r => Return (r, None)
             | Throw e => Throw e
             end).
Proof.
  intros H. split.
  - unfold handleWebSocket. now rewrite optString_eqb_false.
  - now apply fetch_without_upgrade.
Qed.

Lemma malformed_upgrade_rejected_witness :
  let request := mkRequest (Some "h2c") "/ws/session" "?key=k" in
  let static := serveStaticAssets (fun _ => None) (fun _ => None) (fun _ => EmptyString) in
  upgrade request <> Some "websocket"
  /\ handleWebSocket request
     = Return (mkResponse 400 (Some "Expected WebSocket connection") plainText false,
               None)
  /\ fetch true (fun _ => NeverSettles) static request
     = Return (mkResponse 404 (Some "Not found") plainText false, None).
Proof.
  intros request static.
  assert (H : upgrade request <> Some "websocket") by discriminate.
  split; [exact H|].
  exact (malformed_upgrade_rejected true (fun _ => NeverSettles) static request H).
Defined.

(** C9 as stated fails through the router: a request for the path of a
    socket session that carries another [Upgrade] header is answered 404
    "Not found" by the static assets, not 400. *)
Lemma malformed_upgrade_rejected_counterexample :
  let request := mkRequest (Some "h2c") "/ws/session" "?key=k" in
  let static := serveStaticAssets (fun _ => None) (fun _ => None) (fun _ => EmptyString) in
  upgrade request <> Some "websocket"
  /\ fetch true (fun _ => NeverSettles) static request
     = Return (mkResponse 404 (Some "Not found") plainText false, None)
  /\ (forall r relay, fetch true (fun _ => NeverSettles) static request = Return (r, relay) ->
        status r <> 400%Z).
Proof.
  intros request static. split; [discriminate|]. split; [reflexivity|].
  intros r relay H. vm_compute in H. inversion H. discriminate.
Qed.

(** X11. A request that carries [Upgrade: websocket] is relayed whatever
    its path, an API path or the index page included: [fetch] answers 101
    with a socket, and the upstream URL is the fixed host followed by the
    path and the query of the request as they are; nothing is forwarded
    to the guard and no asset is read. *)
Lemma fetch_with_upgrade tie forward serveStatic (request : Request) :
  upgrade request = Some "websocket" ->
  fetch tie forward serveStatic request
  = Return (mkResponse 101 None [] true,
            Some (mkRelay ("wss://generativelanguage.googleapis.com"
                             ++ pathname request ++ search request)%string
                    newSession)).
Proof.
  intros H. unfold fetch, handleWebSocket. rewrite H. reflexivity.
Qed.

(** * Further properties of the relay *)

Lemma Subseq_refl {A : Type} (l : list A) : Subseq l l.
Proof. induction l; [apply Subseq_nil | apply Subseq_keep; assumption]. Qed.

Lemma Subseq_app {A : Type} (a b c d : list A) :
  Subseq a b -> Subseq c d -> Subseq (a ++ c) (b ++ d).
Proof.
  induction 1; intros Hcd; cbn;
    [exact Hcd | apply Subseq_skip; auto | apply Subseq_keep; auto].
Qed.

Lemma Subseq_insert {A : Type} (x : A) (front small back : list A) :
  Subseq small (front ++ back) -> Subseq small (front ++ x :: back).
Proof.
  revert small; induction front as [|y front IH]; intros small H; cbn in *.
  - now constructor.
  - inversion H; subst; constructor; now apply IH.
Qed.

Lemma Subseq_trans {A : Type} (a b c : list A) :
  Subseq a b -> Subseq b c -> Subseq a c.
Proof.
  intros Hab Hbc. revert a Hab.
  induction Hbc as [|x b c Hbc IH|x b c Hbc IH]; intros a Hab.
  - exact Hab.
  - apply Subseq_skip. now apply IH.
  - inversion Hab; subst.
    + apply Subseq_skip. now apply IH.
    + apply Subseq_keep. now apply IH.
Qed.

Lemma Subseq_length {A : Type} (small big : list A) :
  Subseq small big -> List.length small <= List.length big.
Proof. induction 1; cbn; lia. Qed.

Lemma Subseq_In {A : Type} (small big : list A) (x : A) :
  Subseq small big -> In x small -> In x big.
Proof.
  induction 1; cbn; intros Hin; auto.
  destruct Hin; auto.
Qed.

Section RelayFurther.

Variable send_throws : Socket -> Session -> Frame -> bool.

Lemma dispatch_openImpliesDrained e s :
  openImpliesDrained s -> openImpliesDrained (snd (dispatch send_throws e s)).
Proof.
  unfold openImpliesDrained. destruct e;
    [ destruct (dispatch_open send_throws s) as (_ & _ & _ & ->); reflexivity
    | by_cases s; intros H T; try (specialize (H T)); try congruence;
      try discriminate .. ].
Qed.

(** What one turn does to the frames: those it hands to
    [targetWebSocket.send], then those it leaves pending, are the frames
    that were pending, then the frame that arrived if one did, with
    nothing added and the order kept. *)
Lemma dispatch_subseq e s :
  openImpliesDrained s ->
  Subseq (sentTo targetWebSocket (fst (dispatch send_throws e s))
            ++ pendingMessages (snd (dispatch send_throws e s)))
         (pendingMessages s ++ clientFrames [e]).
Proof.
  unfold openImpliesDrained. intros D. destruct e.
  - destruct (dispatch_open send_throws s) as (-> & _ & _ & ->). cbn.
    apply Subseq_refl.
  - by_cases s; cbn; try (rewrite (D eq_refl)); cbn;
      try apply Subseq_refl; try (apply Subseq_insert; rewrite app_nil_r;
      apply Subseq_refl).
  - by_cases s; cbn; rewrite ?app_nil_r; apply Subseq_refl.
  - by_cases s; cbn; rewrite ?app_nil_r; apply Subseq_refl.
  - by_cases s; cbn; rewrite ?app_nil_r; apply Subseq_refl.
  - by_cases s; cbn; rewrite ?app_nil_r; apply Subseq_refl.
  - by_cases s; cbn; rewrite ?app_nil_r; apply Subseq_refl.
Qed.

Lemma Subseq_step {A : Type} (sent kept pend arrived later rest : list A) :
  Subseq (sent ++ kept) (pend ++ arrived) ->
  Subseq rest (kept ++ later) ->
  Subseq (sent ++ rest) (pend ++ arrived ++ later).
Proof.
  intros H1 H2. rewrite app_assoc.
  apply Subseq_trans with (b := (sent ++ kept) ++ later).
  - rewrite <- app_assoc. apply Subseq_app; [apply Subseq_refl | exact H2].
  - apply Subseq_app; [exact H1 | apply Subseq_refl].
Qed.

Lemma clientFrames_cons e es : clientFrames (e :: es) = clientFrames [e] ++ clientFrames es.
Proof. destruct e; reflexivity. Qed.

Lemma upstreamFrames_cons e es :
  upstreamFrames (e :: es) = upstreamFrames [e] ++ upstreamFrames es.
Proof. destruct e; reflexivity. Qed.

Lemma run_subseq es s :
  openImpliesDrained s ->
  Subseq (sentTo targetWebSocket (fst (run send_throws es s))
            ++ pendingMessages (snd (run send_throws es s)))
         (pendingMessages s ++ clientFrames es).
Proof.
  revert s; induction es as [|e es IH]; intros s D.
  - cbn. rewrite app_nil_r. apply Subseq_refl.
  - rewrite run_cons. cbn [fst snd]. rewrite sentTo_app, <- app_assoc.
    rewrite clientFrames_cons.
    apply Subseq_step with (kept := pendingMessages (snd (dispatch send_throws e s))).
    + now apply dispatch_subseq.
    + apply IH. now apply dispatch_openImpliesDrained.
Qed.

(** X1. In every run of a new session the frames handed to
    [targetWebSocket.send], followed by the frames still pending, are
    client frames that arrived, each at most once and in their order of
    arrival: the relay adds no frame, repeats none and reorders none. *)
Theorem upstream_gets_client_frames_in_order (es : list Event) :
  Subseq (sentTo targetWebSocket (fst (run send_throws es newSession))
            ++ pendingMessages (snd (run send_throws es newSession)))
         (clientFrames es).
Proof.
  apply (run_subseq es newSession). unfold openImpliesDrained. discriminate.
Qed.

(** X2. In every run from every session the frames handed to [proxy.send]
    are upstream frames that arrived, each at most once and in their order
    of arrival. *)
Theorem client_gets_upstream_frames_in_order (es : list Event) (s : Session) :
  Subseq (sentTo proxy (fst (run send_throws es s))) (upstreamFrames es).
Proof.
  revert s; induction es as [|e es IH]; intros s.
  - constructor.
  - rewrite run_cons. cbn [fst snd]. rewrite sentTo_app, upstreamFrames_cons.
    apply Subseq_app; [|apply IH].
    destruct e.
    + destruct (dispatch_open send_throws s) as (_ & -> & _). constructor.
    + by_cases s; cbn; constructor.
    + by_cases s; cbn; first [apply Subseq_refl | repeat constructor].
    + by_cases s; cbn; constructor.
    + by_cases s; cbn; constructor.
    + by_cases s; cbn; constructor.
    + by_cases s; cbn; constructor.
Qed.

(** X3. In every run of a new session, whenever the upstream socket is
    open the buffer is empty: no frame waits while it could be sent. *)
Theorem open_means_drained (es : list Event) :
  targetReadyState (snd (run send_throws es newSession)) = OPEN ->
  pendingMessages (snd (run send_throws es newSession)) = [].
Proof.
  apply (run_invariant send_throws openImpliesDrained dispatch_openImpliesDrained).
  unfold openImpliesDrained. discriminate.
Qed.

Lemma dispatch_timer_stays_off e s :
  timeoutId s = false -> timeoutId (snd (dispatch send_throws e s)) = false.
Proof.
  destruct e;
    [ destruct (dispatch_open send_throws s) as (_ & _ & _ & ->); reflexivity
    | by_cases s; intros T; congruence .. ].
Qed.

(** X4. Once the upstream socket has opened in a run, from whatever
    session, the timer is cleared for good: a later timer event does
    nothing, whatever is or is not pending then. *)
Theorem timer_cleared_by_open (before after : list Event) (s0 : Session) :
  let s := snd (run send_throws (before ++ EvTargetOpen :: after) s0) in
  dispatch send_throws EvTimeout s = ([], s).
Proof.
  intros s.
  assert (T : timeoutId s = false).
  { unfold s. rewrite run_app. cbn [snd]. rewrite run_cons. cbn [snd].
    apply (run_invariant send_throws (fun x => timeoutId x = false)
             dispatch_timer_stays_off).
    now destruct (dispatch_open send_throws (snd (run send_throws before s0)))
      as (_ & _ & _ & ->). }
  unfold dispatch. now rewrite T.
Qed.

Lemma dispatch_idle e s :
  keepsIdle e = true ->
  pendingMessages s = [] /\ timeoutId s = true ->
  pendingMessages (snd (dispatch send_throws e s)) = []
  /\ timeoutId (snd (dispatch send_throws e s)) = true.
Proof.
  intros K [P T]. destruct e; try discriminate; by_cases s; split; congruence.
Qed.

(** X5. A new session in which no client frame arrives and the upstream
    socket does not open is reclaimed by the timer, whatever else happened
    (upstream frames, errors, either socket closing): the timer's listener
    calls [targetWebSocket.close(1000, 'No activity after connection')],
    and an upstream socket still connecting or open starts closing. *)
Theorem idle_session_is_reclaimed (es : list Event) :
  forallb keepsIdle es = true ->
  let s := snd (run send_throws es newSession) in
  fst (dispatch send_throws EvTimeout s)
  = [ConsoleLog "WebSocket connection timeout";
     Close targetWebSocket 1000 "No activity after connection"]
  /\ targetReadyState (snd (dispatch send_throws EvTimeout s))
     = closeIfOpenOrConnecting (targetReadyState s)
  /\ proxyReadyState (snd (dispatch send_throws EvTimeout s)) = proxyReadyState s.
Proof.
  intros H s.
  assert (I : pendingMessages s = [] /\ timeoutId s = true).
  { unfold s. clear s. generalize newSession, (conj (eq_refl : pendingMessages newSession = [])
                                    (eq_refl : timeoutId newSession = true)).
    induction es as [|e es IH]; intros s0 I0; [exact I0|].
    cbn [forallb] in H. apply andb_true_iff in H as [He Hes].
    rewrite run_cons. cbn [snd]. apply (IH Hes). now apply dispatch_idle. }
  destruct I as [P T]. clearbody s.
  by_cases s; subst; try discriminate; repeat split.
Qed.

Lemma dispatch_proxy_stays_closed e s :
  proxyReadyState s <> OPEN ->
  proxyReadyState (snd (dispatch send_throws e s)) <> OPEN
  /\ sentTo proxy (fst (dispatch send_throws e s)) = [].
Proof.
  destruct e;
    [ destruct (dispatch_open send_throws s) as (_ & -> & _ & ->); cbn; auto
    | by_cases s; intros P; split; cbn; congruence .. ].
Qed.

(** X6. From the moment the client socket is not open (it has closed, or
    the relay has closed it on an overflow or to mirror the upstream
    close), no frame is handed to [proxy.send] again, in any run: the
    upstream frames that still arrive are dropped. *)
Theorem nothing_sent_to_closed_client (es : list Event) (s : Session) :
  proxyReadyState s <> OPEN ->
  sentTo proxy (fst (run send_throws es s)) = []
  /\ proxyReadyState (snd (run send_throws es s)) <> OPEN.
Proof.
  revert s; induction es as [|e es IH]; intros s P.
  - split; [reflexivity | exact P].
  - rewrite run_cons. cbn [fst snd].
    destruct (dispatch_proxy_stays_closed e s P) as [P1 S1].
    destruct (IH _ P1) as [S2 P2].
    rewrite sentTo_app, S1, S2. split; [reflexivity | exact P2].
Qed.

(** X7. While the upstream socket of a new session is connecting, the
    buffer takes the first [MAX_PENDING_MESSAGES] client frames and every
    frame beyond them is dropped with one more call of
    [proxy.close(1008, 'Too many pending messages')]: the call is not
    guarded by the state of [proxy], so it is repeated for each. *)
Theorem every_frame_beyond_capacity_closes_again (arrivals : list Event) :
  forallb whileConnecting arrivals = true ->
  let r := run send_throws arrivals newSession in
  pendingMessages (snd r) = firstn MAX_PENDING_MESSAGES (clientFrames arrivals)
  /\ closesOf proxy (fst r)
     = repeat (1008%Z, "Too many pending messages")
         (List.length (clientFrames arrivals) - MAX_PENDING_MESSAGES)
  /\ sentTo targetWebSocket (fst r) = [].
Proof.
  intros H r.
  assert (Hnew : targetReadyState newSession <> OPEN) by discriminate.
  destruct (connecting_phase send_throws arrivals newSession H Hnew)
    as (A1 & _ & A3 & A4 & _).
  cbv zeta in A1, A3, A4. fold r in A1, A3, A4.
  cbn [newSession pendingMessages List.length app] in A3, A4.
  rewrite Nat.sub_0_r in *. repeat split; auto.
Qed.

(** X8. A mirrored close is not echoed: after the "close" event of one
    socket, the "close" event of the other calls no [close] on the first,
    which is closed by then. *)
Theorem mirrored_close_is_not_echoed
    (s : Session) (code code' : Z) (reason reason' : string) :
  closesOf targetWebSocket
    (fst (dispatch send_throws (EvProxyClose code' reason')
            (snd (dispatch send_throws (EvTargetClose code reason) s)))) = []
  /\ closesOf proxy
       (fst (dispatch send_throws (EvTargetClose code' reason')
               (snd (dispatch send_throws (EvProxyClose code reason) s)))) = [].
Proof.
  split; by_cases s; reflexivity.
Qed.


End RelayFurther.

(** * Further properties of the guard *)

Lemma catchBlock_returns (error : Thrown) (r : Response) :
  catchBlock error = Return r ->
  headers r = plainText
  /\ (exists text, body r = Some text)
  /\ (200 <= status r <= 599)%Z
  /\ nullBodyStatus (status r) = false
  /\ webSocket r = false.
Proof.
  unfold catchBlock, new_Response. cbn [negb andb hasHeader String.eqb orb].
  destruct error as [|message st|message st]; [discriminate | |];
    destruct ((200 <=? statusOr500 st)%Z && (statusOr500 st <=? 599)%Z) eqn:R;
    cbn [negb]; try discriminate;
    destruct (nullBodyStatus (statusOr500 st)) eqn:N; try discriminate;
    intros H; inversion H; subst; cbn;
    apply andb_true_iff in R as [R1 R2];
    apply Z.leb_le in R1; apply Z.leb_le in R2;
    repeat split; eauto.
Qed.

(** X9. Whatever the guard returns is either the response the forwarding
    call was fulfilled with, untouched, or an answer of the [catch] block:
    a text body under [content-type: text/plain;charset=UTF-8] with a
    status between 200 and 599 that admits a body. *)
Theorem guard_returns_forwarded_or_plain_text
    (tie : bool) (call : ForwardCall) (r : Response) :
  handleAPIRequest tie call = Return r ->
  (exists after, call = Settles after (Fulfils r))
  \/ (headers r = plainText
      /\ (exists text, body r = Some text)
      /\ (200 <= status r <= 599)%Z
      /\ nullBodyStatus (status r) = false
      /\ webSocket r = false).
Proof.
  destruct call as [e | e | after how |]; cbn [handleAPIRequest]; intros H.
  - right. now apply (catchBlock_returns e).
  - right. now apply (catchBlock_returns e).
  - unfold race in H.
    destruct (after <? API_TIMEOUT)%Z;
      [| destruct (API_TIMEOUT <? after)%Z; [| destruct tie]];
      try (right; now apply (catchBlock_returns timeoutError));
      (destruct how as [response | e];
       [ left; exists after; congruence
       | right; now apply (catchBlock_returns e) ]).
  - right. now apply (catchBlock_returns timeoutError).
Qed.

Lemma guard_returns_forwarded_or_plain_text_witness :
  handleAPIRequest false (FetchThrows (OtherValue None (Some 0%Z)))
  = Return (mkResponse 500 (Some "Unknown error occurred") plainText false)
  /\ ((exists after,
         FetchThrows (OtherValue None (Some 0%Z))
         = Settles after
             (Fulfils (mkResponse 500 (Some "Unknown error occurred") plainText false)))
      \/ (headers (mkResponse 500 (Some "Unknown error occurred") plainText false)
          = plainText
          /\ (exists text,
                body (mkResponse 500 (Some "Unknown error occurred") plainText false)
                = Some text)
          /\ (200 <= status (mkResponse 500 (Some "Unknown error occurred") plainText false)
              <= 599)%Z
          /\ nullBodyStatus
               (status (mkResponse 500 (Some "Unknown error occurred") plainText false))
             = false
          /\ webSocket (mkResponse 500 (Some "Unknown error occurred") plainText false)
             = false)).
Proof.
  split; [reflexivity|].
  exact (guard_returns_forwarded_or_plain_text false
           (FetchThrows (OtherValue None (Some 0%Z)))
           (mkResponse 500 (Some "Unknown error occurred") plainText false) eq_refl).
Defined.

(** * Further properties of the router *)

Lemma length_append (s t : string) :
  String.length (s ++ t) = String.length s + String.length t.
Proof. induction s as [|c s IH]; cbn; [reflexivity | now rewrite IH]. Qed.

Lemma substring_0_all (s : string) : substring 0 (String.length s) s = s.
Proof. induction s as [|c s IH]; cbn; [reflexivity | now rewrite IH]. Qed.

Lemma substring_skip (p s : string) (m : nat) :
  substring (String.length p) m (p ++ s) = substring 0 m s.
Proof. induction p as [|c p IH]; cbn; [reflexivity | exact IH]. Qed.

Lemma substring_split (n m : nat) (s : string) :
  n + m = String.length s -> s = (substring 0 n s ++ substring n m s)%string.
Proof.
  revert s; induction n as [|n IH]; intros s H.
  - cbn in H. subst m. rewrite substring_0_all. now destruct s.
  - destruct s as [|c s]; [discriminate|]. cbn in H. cbn.
    f_equal. apply IH. lia.
Qed.

Lemma endsWith_append (p suffix : string) : endsWith (p ++ suffix) suffix = true.
Proof.
  unfold endsWith. rewrite length_append.
  replace (String.length p + String.length suffix - String.length suffix)
    with (String.length p) by lia.
  rewrite substring_skip, substring_0_all, String.eqb_refl.
  rewrite andb_true_r. apply Nat.leb_le. lia.
Qed.

Lemma endsWith_true (s suffix : string) :
  endsWith s suffix = true -> exists p, s = (p ++ suffix)%string.
Proof.
  unfold endsWith. intros H. apply andb_true_iff in H as [L E].
  apply Nat.leb_le in L. apply String.eqb_eq in E.
  exists (substring 0 (String.length s - String.length suffix) s).
  rewrite <- E at 2. apply substring_split. lia.
Qed.

(** X10. A request without [Upgrade: websocket] goes to the guard exactly
    when its path ends in [/chat/completions], [/embeddings] or [/models],
    whatever comes before the ending: then [fetch] answers what the guard
    answers and the static assets are not consulted; otherwise it answers
    what the static assets answer and nothing is forwarded. *)
Theorem api_paths_go_to_the_guard
    (tie : bool) (forward : Request -> ForwardCall)
    (serveStatic : Request -> Completion Response) (request : Request) :
  upgrade request <> Some "websocket" ->
  ((exists p, pathname request = (p ++ "/chat/completions")%string
              \/ pathname request = (p ++ "/embeddings")%string
              \/ pathname request = (p ++ "/models")%string) ->
   fetch tie forward serveStatic request
   = match handleAPIRequest tie (forward request) with
     | Return r => Return (r, None)
     | Throw e => Throw e
     end)
  /\ ((forall p, pathname request <> (p ++ "/chat/completions")%string
                 /\ pathname request <> (p ++ "/embeddings")%string
                 /\ pathname request <> (p ++ "/models")%string) ->
      fetch tie forward serveStatic request
      = match serveStatic request with
        | Return r => Return (r, None)
        | Throw e => Throw e
        end).
Proof.
  intros U. unfold fetch. rewrite (optString_eqb_false _ _ U). split.
  - intros [p [H | [H | H]]]; rewrite H, endsWith_append;
      rewrite ?orb_true_r; reflexivity.
  - intros N.
    destruct (endsWith (pathname request) "/chat/completions") eqn:E1.
    { apply endsWith_true in E1 as [p E]. now destruct (N p) as (N1 & _). }
    destruct (endsWith (pathname request) "/embeddings") eqn:E2.
    { apply endsWith_true in E2 as [p E]. now destruct (N p) as (_ & N2 & _). }
    destruct (endsWith (pathname request) "/models") eqn:E3.
    { apply endsWith_true in E3 as [p E]. now destruct (N p) as (_ & _ & N3). }
    reflexivity.
Qed.

Lemma api_paths_go_to_the_guard_witness :
  let request := mkRequest None "/v1beta/models" "?key=k" in
  let forward := fun _ : Request => Settles 20 (Fulfils (mkResponse 200 (Some "[]") [] false)) in
  let serveStatic := fun _ : Request => Throw Nullish in
  upgrade request <> Some "websocket"
  /\ (exists p, pathname request = (p ++ "/chat/completions")%string
                \/ pathname request = (p ++ "/embeddings")%string
                \/ pathname request = (p ++ "/models")%string)
  /\ fetch true forward serveStatic request
     = Return (mkResponse 200 (Some "[]") [] false, None).
Proof.
  intros request forward serveStatic.
  assert (U : upgrade request <> Some "websocket") by discriminate.
  assert (P : exists p, pathname request = (p ++ "/chat/completions")%string
                        \/ pathname request = (p ++ "/embeddings")%string
                        \/ pathname request = (p ++ "/models")%string)
    by (exists "/v1beta"; right; right; reflexivity).
  split; [exact U|]. split; [exact P|].
  exact (proj1 (api_paths_go_to_the_guard true forward serveStatic request U) P).
Defined.

Lemma fetch_with_upgrade_witness :
  let request := mkRequest (Some "websocket") "/v1/chat/completions" "?alt=sse" in
  upgrade request = Some "websocket"
  /\ fetch true (fun _ => NeverSettles) (fun _ => Throw Nullish) request
     = Return (mkResponse 101 None [] true,
               Some (mkRelay
                       "wss://generativelanguage.googleapis.com/v1/chat/completions?alt=sse"
                       newSession)).
Proof.
  intros request. split; [reflexivity|].
  exact (fetch_with_upgrade true (fun _ => NeverSettles) (fun _ => Throw Nullish)
           request eq_refl).
Defined.

(** * Properties of [getContentType] *)

Lemma lowerAscii_idempotent (c : ascii) : lowerAscii (lowerAscii c) = lowerAscii c.
Proof. destruct c as [[] [] [] [] [] [] [] []]; reflexivity. Qed.

Lemma lowerAscii_dot (c : ascii) :
  Ascii.eqb (lowerAscii c) "."%char = Ascii.eqb c "."%char.
Proof. destruct c as [[] [] [] [] [] [] [] []]; reflexivity. Qed.

Lemma lowerAscii_slash (c : ascii) :
  Ascii.eqb (lowerAscii c) "/"%char = Ascii.eqb c "/"%char.
Proof. destruct c as [[] [] [] [] [] [] [] []]; reflexivity. Qed.

Lemma toLowerCase_idempotent (s : string) :
  toLowerCase (toLowerCase s) = toLowerCase s.
Proof.
  induction s as [|c s IH]; cbn; [reflexivity|].
  now rewrite lowerAscii_idempotent, IH.
Qed.

Lemma hasChar_slash_lower (s : string) :
  hasChar "/"%char (toLowerCase s) = hasChar "/"%char s.
Proof.
  induction s as [|c s IH]; cbn; [reflexivity|].
  now rewrite lowerAscii_slash, IH.
Qed.

Lemma splitOn_nonempty (sep : ascii) (s : string) : splitOn sep s <> [].
Proof.
  destruct s as [|c s]; cbn; [discriminate|].
  destruct (Ascii.eqb c sep); [discriminate|].
  destruct (splitOn sep s); discriminate.
Qed.

Lemma splitOn_lower (s : string) :
  splitOn "."%char (toLowerCase s) = map toLowerCase (splitOn "."%char s).
Proof.
  induction s as [|c s IH]; [reflexivity|].
  cbn [toLowerCase splitOn]. rewrite lowerAscii_dot, IH.
  destruct (Ascii.eqb c "."%char); [reflexivity|].
  destruct (splitOn "."%char s); reflexivity.
Qed.

Lemma last_map_lower (l : list string) :
  last (map toLowerCase l) EmptyString = toLowerCase (last l EmptyString).
Proof.
  induction l as [|x l IH]; [reflexivity|].
  destruct l as [|y l]; [reflexivity|]. exact IH.
Qed.

Lemma splitOn_without (sep : ascii) (s : string) :
  hasChar sep s = false -> splitOn sep s = [s].
Proof.
  induction s as [|c s IH]; cbn; [reflexivity|]. intros H.
  apply orb_false_iff in H as [H1 H2]. rewrite H1, (IH H2). reflexivity.
Qed.

Lemma splitOn_append (sep : ascii) (p e : string) :
  splitOn sep (p ++ String sep e) = splitOn sep p ++ splitOn sep e.
Proof.
  induction p as [|c p IH]; cbn [append splitOn].
  - now rewrite Ascii.eqb_refl.
  - rewrite IH. destruct (Ascii.eqb c sep); [reflexivity|].
    destruct (splitOn sep p) eqn:E; [now apply splitOn_nonempty in E | reflexivity].
Qed.

Lemma last_append_nonempty {A : Type} (l1 l2 : list A) (d : A) :
  l2 <> [] -> last (l1 ++ l2) d = last l2 d.
Proof.
  intros H. induction l1 as [|x l1 IH]; [reflexivity|].
  cbn [app]. destruct (l1 ++ l2) eqn:E.
  - apply app_eq_nil in E as [_ E]. contradiction.
  - exact IH.
Qed.

(** The extension that [getContentType] looks up. *)
Lemma extension_after_last_dot (p e : string) :
  hasChar "."%char e = false ->
  last (splitOn "."%char (p ++ String "."%char e)) EmptyString = e.
Proof.
  intros H. rewrite splitOn_append, last_append_nonempty by apply splitOn_nonempty.
  now rewrite (splitOn_without _ _ H).
Qed.

(** X12. The content type depends on what follows the last dot of the
    path only, and not on its case: a path that ends in a dot and an
    extension without dots has the type of the extension alone, and a path
    has the type of the path in lower case. *)
Theorem content_type_by_last_extension :
  (forall p e, hasChar "."%char e = false ->
     getContentType (p ++ String "."%char e) = getContentType e)
  /\ (forall path, getContentType (toLowerCase path) = getContentType path).
Proof.
  split.
  - intros p e H. unfold getContentType.
    rewrite (extension_after_last_dot p e H), (splitOn_without _ _ H). reflexivity.
  - intros path. unfold getContentType.
    now rewrite splitOn_lower, last_map_lower, toLowerCase_idempotent.
Qed.

Lemma content_type_by_last_extension_witness :
  hasChar "."%char "PNG" = false
  /\ getContentType "/img/logo.v2.PNG" = getContentType "PNG"
  /\ getContentType "PNG" = OwnString "image/png".
Proof.
  assert (H : hasChar "."%char "PNG" = false) by reflexivity.
  split; [exact H|]. split; [|reflexivity].
  exact (proj1 content_type_by_last_extension "/img/logo.v2" "PNG" H).
Defined.

Lemma typesLookup_names (ext : string) (member : Member) :
  typesLookup ext = Some member ->
  (exists v, member = OwnString v /\ In (ext, v) types)
  \/ (member = Inherited ext /\ In ext objectPrototypeNames).
Proof.
  unfold typesLookup.
  destruct (ownProperty ext types) as [v|] eqn:O.
  - intros H. inversion H; subst. left. exists v. split; [reflexivity|].
    revert O. generalize types. induction l as [|[k w] l IH]; cbn; [discriminate|].
    destruct (String.eqb_spec k ext); intros O.
    + inversion O; subst. now left.
    + right. now apply IH.
  - destruct (existsb (String.eqb ext) objectPrototypeNames) eqn:E; [|discriminate].
    intros H. inversion H; subst. right. split; [reflexivity|].
    apply existsb_exists in E as (n & Hin & Heq).
    apply String.eqb_eq in Heq. now subst.
Qed.

(** X13. [getContentType] returns one of the eight types of its table or
    ['text/plain'], with two exceptions, which are real: for the
    extensions [constructor] and [__proto__], in any case of letters, the
    lookup finds a member that the table inherits and the function
    returns that member, which is no string. *)
Theorem content_type_is_a_known_type_or_inherited :
  (forall path,
     (exists mime, getContentType path = OwnString mime
                   /\ In mime ["application/javascript"; "text/css"; "text/html";
                               "application/json"; "image/png"; "image/jpeg";
                               "image/gif"; "text/plain"])
     \/ getContentType path = Inherited "constructor"
     \/ getContentType path = Inherited "__proto__")
  /\ getContentType "/assets/a.Constructor" = Inherited "constructor"
  /\ getContentType "/assets/b.__PROTO__" = Inherited "__proto__".
Proof.
  split; [|split; reflexivity]. intros path.
  unfold getContentType.
  set (ext := last (splitOn "."%char path) EmptyString).
  destruct (typesLookup (toLowerCase ext)) as [member|] eqn:L.
  - apply typesLookup_names in L as [(v & -> & Hin) | (-> & Hin)].
    + left. exists v. split; [reflexivity|].
      cbn in Hin. cbn.
      repeat (destruct Hin as [Hin | Hin];
              [inversion Hin; subst; tauto|]).
      destruct Hin.
    + right.
      assert (I : toLowerCase (toLowerCase ext) = toLowerCase ext)
        by apply toLowerCase_idempotent.
      set (name := toLowerCase ext) in *. clearbody name.
      cbn in Hin.
      repeat (destruct Hin as [Hin | Hin];
              [subst name;
               first [now left | now right | vm_compute in I; discriminate I]|]).
      destruct Hin.
  - left. exists "text/plain". split; [reflexivity|]. cbn. tauto.
Qed.

Lemma known_names_have_no_slash (ext : string) (member : Member) :
  typesLookup ext = Some member -> hasChar "/"%char ext = false.
Proof.
  intros L.
  assert (F : forallb (fun n => negb (hasChar "/"%char n))
                (map fst types ++ objectPrototypeNames) = true) by reflexivity.
  rewrite forallb_forall in F.
  apply negb_true_iff, F, in_or_app.
  apply typesLookup_names in L as [(v & _ & Hin) | (_ & Hin)].
  - left. change ext with (fst (ext, v)). now apply in_map.
  - now right.
Qed.

(** X14. A path whose last piece after a dot holds a slash, or that holds
    no dot at all but a slash, has no extension the table knows: its type
    is ['text/plain']. *)
Theorem content_type_without_extension :
  (forall p e, hasChar "."%char e = false -> hasChar "/"%char e = true ->
     getContentType (p ++ String "."%char e) = OwnString "text/plain")
  /\ (forall path, hasChar "."%char path = false -> hasChar "/"%char path = true ->
        getContentType path = OwnString "text/plain").
Proof.
  assert (K : forall ext, hasChar "/"%char ext = true ->
                match typesLookup (toLowerCase ext) with
                | Some member => member
                | None => OwnString "text/plain"
                end = OwnString "text/plain").
  { intros ext S. rewrite <- hasChar_slash_lower in S.
    destruct (typesLookup (toLowerCase ext)) as [member|] eqn:L; [|reflexivity].
    rewrite (known_names_have_no_slash _ _ L) in S. discriminate. }
  split.
  - intros p e D S. unfold getContentType.
    rewrite (extension_after_last_dot p e D). now apply K.
  - intros path D S. unfold getContentType.
    rewrite (splitOn_without _ _ D). cbn [last]. now apply K.
Qed.

Lemma content_type_without_extension_witness :
  hasChar "."%char "/docs/README" = false
  /\ hasChar "/"%char "/docs/README" = true
  /\ getContentType "/docs/README" = OwnString "text/plain"
  /\ getContentType "/v1.2/css" = OwnString "text/plain".
Proof.
  assert (D : hasChar "."%char "/docs/README" = false) by reflexivity.
  assert (S : hasChar "/"%char "/docs/README" = true) by reflexivity.
  split; [exact D|]. split; [exact S|]. split.
  - exact (proj2 content_type_without_extension "/docs/README" D S).
  - exact (proj1 content_type_without_extension "/v1" "2/css" eq_refl eq_refl).
Defined.

(** * Properties of the static assets *)

Section StaticProperties.

Variable STATIC_CONTENT : string -> option string.
Variable cacheMatch : Request -> option Response.
Variable headerText : Member -> string.

(** X15. What the store holds under a key, if it is not empty, is served
    at the path of that key with status 200, the body as it is stored and
    the content type [getContentType] gives the path, provided the path is
    not the index page; nothing is put in the cache. *)
Theorem stored_asset_is_served (request : Request) (asset mime : string) :
  isIndex (pathname request) = false ->
  STATIC_CONTENT (slice1 (pathname request)) = Some asset ->
  asset <> EmptyString ->
  getContentType (pathname request) = OwnString mime ->
  handleStatic STATIC_CONTENT cacheMatch headerText request
  = Return (mkResponse 200 (Some asset) [("content-type", mime)] false, None).
Proof.
  intros I K N T. unfold handleStatic. rewrite I, K.
  destruct asset as [|c rest]; [congruence|]. rewrite T. reflexivity.
Qed.

(** X16. A path that is not the index page and whose key the store does
    not hold, or holds with an empty value, is answered 404 with the
    plain-text body "Not found": an empty asset cannot be served. *)
Theorem missing_or_empty_asset_is_not_found (request : Request) :
  isIndex (pathname request) = false ->
  STATIC_CONTENT (slice1 (pathname request)) = None
  \/ STATIC_CONTENT (slice1 (pathname request)) = Some EmptyString ->
  handleStatic STATIC_CONTENT cacheMatch headerText request
  = Return (mkResponse 404 (Some "Not found") plainText false, None).
Proof.
  intros I [K | K]; unfold handleStatic; rewrite I, K; reflexivity.
Qed.

(** X17. For [/] and [/index.html], when the cache has nothing, the
    answer is built from the store's [index.html]: status 200, content
    type [text/html;charset=UTF-8], [Cache-Control: public, max-age=3600],
    and the same response is handed to [cache.put].  The status is 200
    even when the store has no [index.html]: the body is then empty. *)
Theorem index_is_built_on_a_cache_miss (request : Request) :
  isIndex (pathname request) = true ->
  cacheMatch request = None ->
  let page :=
    mkResponse 200 (STATIC_CONTENT "index.html")
      [("content-type", "text/html;charset=UTF-8");
       ("Cache-Control", "public, max-age=3600")] false in
  handleStatic STATIC_CONTENT cacheMatch headerText request
  = Return (page, Some page).
Proof.
  intros I C page. unfold handleStatic. rewrite I, C. unfold page.
  destruct (STATIC_CONTENT "index.html"); reflexivity.
Qed.

End StaticProperties.

(** X18. Once the page built on a miss is in the cache, a request for the
    index page is answered with that very page and nothing is read from
    the store, whatever the store holds by then, and nothing is put in
    the cache again. *)
Theorem cached_index_is_served_as_it_was_built
    (store store' : string -> option string)
    (cache cache' : Request -> option Response)
    (headerText : Member -> string)
    (request : Request) (page put : Response) :
  isIndex (pathname request) = true ->
  cache request = None ->
  handleStatic store cache headerText request = Return (page, Some put) ->
  cache' request = Some put ->
  handleStatic store' cache' headerText request = Return (page, None).
Proof.
  intros I C H C'. unfold handleStatic in *. rewrite I in *. rewrite C in H.
  rewrite C'.
  destruct (new_Response (store "index.html") None indexHeaders false);
    inversion H; subst. reflexivity.
Qed.

Lemma stored_asset_is_served_witness :
  let store := fun key => if String.eqb key "app/main.JS" then Some "let x" else None in
  let request := mkRequest None "/app/main.JS" "" in
  isIndex (pathname request) = false
  /\ store (slice1 (pathname request)) = Some "let x"
  /\ "let x" <> EmptyString
  /\ getContentType (pathname request) = OwnString "application/javascript"
  /\ handleStatic store (fun _ => None) (fun _ => EmptyString) request
     = Return (mkResponse 200 (Some "let x")
                 [("content-type", "application/javascript")] false, None).
Proof.
  intros store request.
  assert (N : "let x" <> EmptyString) by discriminate.
  split; [reflexivity|]. split; [reflexivity|]. split; [exact N|].
  split; [reflexivity|].
  exact (stored_asset_is_served store (fun _ => None) (fun _ => EmptyString)
           request "let x" "application/javascript" eq_refl eq_refl N eq_refl).
Defined.

Lemma missing_or_empty_asset_is_not_found_witness :
  let store := fun key => if String.eqb key "empty.css" then Some EmptyString else None in
  let request := mkRequest None "/empty.css" "" in
  isIndex (pathname request) = false
  /\ store (slice1 (pathname request)) = Some EmptyString
  /\ handleStatic store (fun _ => None) (fun _ => EmptyString) request
     = Return (mkResponse 404 (Some "Not found") plainText false, None).
Proof.
  intros store request.
  split; [reflexivity|]. split; [reflexivity|].
  exact (missing_or_empty_asset_is_not_found store (fun _ => None)
           (fun _ => EmptyString) request eq_refl (or_intror eq_refl)).
Defined.

Lemma index_is_built_on_a_cache_miss_witness :
  let request := mkRequest None "/" "?v=2" in
  isIndex (pathname request) = true
  /\ handleStatic (fun _ => None) (fun _ => None) (fun _ => EmptyString) request
     = Return (mkResponse 200 None
                 [("content-type", "text/html;charset=UTF-8");
                  ("Cache-Control", "public, max-age=3600")] false,
               Some (mkResponse 200 None
                       [("content-type", "text/html;charset=UTF-8");
                        ("Cache-Control", "public, max-age=3600")] false)).
Proof.
  intros request. split; [reflexivity|].
  exact (index_is_built_on_a_cache_miss (fun _ => None) (fun _ => None)
           (fun _ => EmptyString) request eq_refl eq_refl).
Defined.

Lemma cached_index_is_served_as_it_was_built_witness :
  let request := mkRequest None "/index.html" "" in
  let old := fun key => if String.eqb key "index.html" then Some "<p>old</p>" else None in
  let new := fun key => if String.eqb key "index.html" then Some "<p>new</p>" else None in
  let page := mkResponse 200 (Some "<p>old</p>") indexHeaders false in
  isIndex (pathname request) = true
  /\ handleStatic old (fun _ => None) (fun _ => EmptyString) request
     = Return (page, Some page)
  /\ handleStatic new (fun _ => Some page) (fun _ => EmptyString) request
     = Return (page, None).
Proof.
  intros request old new page.
  split; [reflexivity|]. split; [reflexivity|].
  exact (cached_index_is_served_as_it_was_built old new (fun _ => None)
           (fun _ => Some page) (fun _ => EmptyString) request page page
           eq_refl eq_refl eq_refl eq_refl).
Defined.

(** * Witnesses of the further properties of the relay *)

Lemma open_means_drained_witness :
  let es := [EvProxyMessage (TextFrame "a"); EvProxyMessage (TextFrame "b");
             EvTargetOpen; EvProxyMessage (TextFrame "c")] in
  targetReadyState (snd (run alwaysThrows es newSession)) = OPEN
  /\ pendingMessages (snd (run alwaysThrows es newSession)) = [].
Proof.
  intros es.
  assert (H : targetReadyState (snd (run alwaysThrows es newSession)) = OPEN)
    by reflexivity.
  split; [exact H | exact (open_means_drained alwaysThrows es H)].
Defined.

Lemma idle_session_is_reclaimed_witness :
  let es := [EvTargetError "refused"; EvTargetClose 1006 ""] in
  forallb keepsIdle es = true
  /\ fst (dispatch neverThrows EvTimeout (snd (run neverThrows es newSession)))
     = [ConsoleLog "WebSocket connection timeout";
        Close targetWebSocket 1000 "No activity after connection"].
Proof.
  intros es. split; [reflexivity|].
  exact (proj1 (idle_session_is_reclaimed neverThrows es eq_refl)).
Defined.

Lemma nothing_sent_to_closed_client_witness :
  let s := snd (run neverThrows (map EvProxyMessage elevenFrames) newSession) in
  let es := [EvTargetOpen; EvTargetMessage (TextFrame "answer")] in
  proxyReadyState s <> OPEN
  /\ sentTo proxy (fst (run neverThrows es s)) = [].
Proof.
  intros s es.
  assert (H : proxyReadyState s <> OPEN) by discriminate.
  split; [exact H | exact (proj1 (nothing_sent_to_closed_client neverThrows es s H))].
Defined.

Lemma every_frame_beyond_capacity_closes_again_witness :
  let arrivals := map EvProxyMessage (elevenFrames ++ [TextFrame "12"; TextFrame "13"]) in
  forallb whileConnecting arrivals = true
  /\ closesOf proxy (fst (run neverThrows arrivals newSession))
     = [(1008%Z, "Too many pending messages"); (1008%Z, "Too many pending messages");
        (1008%Z, "Too many pending messages")].
Proof.
  intros arrivals. split; [reflexivity|].
  exact (proj1 (proj2 (every_frame_beyond_capacity_closes_again neverThrows arrivals
                         eq_refl))).
Defined.

(** * The router over the static assets *)

(** X19. Through [fetch], a request for [/] or [/index.html] without
    [Upgrade: websocket] is never forwarded to the API module: on a cache
    miss it is answered with the page built from the store, status 200,
    and on a hit with what the cache holds, and in neither case is a relay
    set up. *)
Theorem index_page_through_fetch
    (tie : bool) (forward : Request -> ForwardCall)
    (store : string -> option string) (cache : Request -> option Response)
    (headerText : Member -> string) (request : Request) :
  upgrade request <> Some "websocket" ->
  isIndex (pathname request) = true ->
  fetch tie forward (serveStaticAssets store cache headerText) request
  = Return (match cache request with
            | Some cached => cached
            | None => mkResponse 200 (store "index.html") indexHeaders false
            end, None).
Proof.
  intros U I. unfold fetch. rewrite (optString_eqb_false _ _ U).
  assert (P : pathname request = "/" \/ pathname request = "/index.html").
  { unfold isIndex in I. apply orb_true_iff in I as [I | I];
      apply String.eqb_eq in I; auto. }
  unfold serveStaticAssets, handleStatic. rewrite I.
  destruct P as [-> | ->]; cbn [endsWith]; 
    (destruct (cache request) as [cached|]; [reflexivity|]);
    destruct (store "index.html"); reflexivity.
Qed.

Lemma index_page_through_fetch_witness :
  let request := mkRequest (Some "h2c") "/index.html" "" in
  let store := fun key => if String.eqb key "index.html" then Some "<html></html>" else None in
  upgrade request <> Some "websocket"
  /\ isIndex (pathname request) = true
  /\ fetch false (fun _ => ImportFails Nullish)
       (serveStaticAssets store (fun _ => None) (fun _ => EmptyString)) request
     = Return (mkResponse 200 (Some "<html></html>") indexHeaders false, None).
Proof.
  intros request store.
  assert (U : upgrade request <> Some "websocket") by discriminate.
  split; [exact U|]. split; [reflexivity|].
  exact (index_page_through_fetch false (fun _ => ImportFails Nullish) store
           (fun _ => None) (fun _ => EmptyString) request U eq_refl).
Defined.


(** * The overflow of the buffer *)


